(** * FaceRecognitionApp: brightness monitor, face registry and recognition session

    A shallow embedding of [src/components/FaceRecognitionApp.jsx].

    - JavaScript numbers are IEEE 754 doubles.  The arithmetic of
      [checkBrightness] is written once, over an interface of number
      operations, and instantiated twice: with Rocq's primitive binary64
      floats (what the browser computes) and with exact rationals extended
      by NaN and the infinities (the arithmetic without rounding).
    - The React state of the component is a record; an event handler is a
      function on it.  Arrays held in state live in a store of array objects
      and are referred to by location, so that sharing is visible.
    - The browser (alerts, the console, the canvas, timers) is a log of
      events and a timer queue inside the state; the camera and the detector
      of face-api.js are inputs. *)

From Stdlib Require Import ZArith QArith Floats Uint63 String List Bool Lia.
From Stdlib Require Import Strings.Byte.
From stdpp Require Import base option list gmap strings.
Import ListNotations.

Set Warnings "-register-all".
Set Default Proof Using "Type".

Local Open Scope string_scope.
Local Open Scope Z_scope.

(** ** JavaScript numbers *)

(** The operations on numbers that the component uses. *)
Class JSNumber (num : Type) := {
  num_of_Z : Z -> num;          (* an integer: literal, array length, Uint8 element *)
  num_NaN : num;                (* what [undefined] becomes in arithmetic *)
  num_add : num -> num -> num;  (* [x + y] *)
  num_div : num -> num -> num;  (* [x / y] *)
  num_ltb : num -> num -> bool  (* [x < y] *)
}.

(** *** Doubles *)

Definition float_of_Z (z : Z) : float :=
  if z <? 0 then PrimFloat.opp (PrimFloat.of_uint63 (Uint63.of_Z (- z)))
  else PrimFloat.of_uint63 (Uint63.of_Z z).

#[export] Instance ieee : JSNumber float := {
  num_of_Z := float_of_Z;
  num_NaN := PrimFloat.nan;
  num_add := PrimFloat.add;
  num_div := PrimFloat.div;
  num_ltb := PrimFloat.ltb
}.

(** *** Exact arithmetic: rationals with NaN and the two infinities *)

Inductive exact : Type :=
| XNaN
| XInf (neg : bool)
| XFin (q : Q).

Definition Qltb (a b : Q) : bool := negb (Qle_bool b a).
Definition Qzerob (a : Q) : bool := Qeq_bool a 0.

Definition exact_add (x y : exact) : exact :=
  match x, y with
  | XNaN, _ | _, XNaN => XNaN
  | XInf a, XInf b => if Bool.eqb a b then XInf a else XNaN
  | XInf a, XFin _ | XFin _, XInf a => XInf a
  | XFin a, XFin b => XFin (a + b)
  end.

Definition exact_div (x y : exact) : exact :=
  match x, y with
  | XNaN, _ | _, XNaN => XNaN
  | XInf _, XInf _ => XNaN
  | XInf a, XFin b => XInf (xorb a (Qltb b 0))
  | XFin _, XInf _ => XFin 0
  | XFin a, XFin b =>
      if Qzerob b then (if Qzerob a then XNaN else XInf (Qltb a 0))
      else XFin (a / b)
  end.

Definition exact_ltb (x y : exact) : bool :=
  match x, y with
  | XNaN, _ | _, XNaN => false
  | XInf a, XInf b => a && negb b
  | XInf a, XFin _ => a
  | XFin _, XInf b => negb b
  | XFin a, XFin b => Qltb a b
  end.

#[export] Instance rational : JSNumber exact := {
  num_of_Z := fun z => XFin (inject_Z z);
  num_NaN := XNaN;
  num_add := exact_add;
  num_div := exact_div;
  num_ltb := exact_ltb
}.

(** ** Brightness monitor: [checkBrightness] *)

(** [frame.data]: a [Uint8ClampedArray], four bytes (R, G, B, A) per pixel. *)
Abbreviation PixelData := (list byte) (only parsing).

Definition byte_value (b : byte) : Z := Z.of_N (Byte.to_N b).

Definition BRIGHTNESS_WARNING : string :=
  "Warning: Camera image is too dark. Please increase brightness.".

Section Brightness.
Context {num : Type} `{JSNumber num}.

(** [frame.data[i]] as an operand of [+]: an index past the end reads
    [undefined], which arithmetic turns into NaN. *)
Definition data_at (data : PixelData) (i : nat) : num :=
  match data !! i with
  | Some b => num_of_Z (byte_value b)
  | None => num_NaN
  end.

(** The body of the [for] loop, one pixel. *)
Definition add_pixel (data : PixelData) (i : nat) (total : num) : num :=
  num_add total
    (num_div
       (num_add (num_add (data_at data i) (data_at data (i + 1)))
                (data_at data (i + 2)))
       (num_of_Z 3)).

(** [for (let i = ...; i < frame.data.length; i += 4) total += ...].
    The loop makes at most [length data] rounds; [fuel] counts them. *)
Fixpoint brightness_loop (fuel : nat) (data : PixelData) (i : nat) (total : num) : num :=
  match fuel with
  | O => total
  | S fuel' =>
      if (i <? length data)%nat
      then brightness_loop fuel' data (i + 4) (add_pixel data i total)
      else total
  end.

Definition brightness_total (data : PixelData) : num :=
  brightness_loop (length data) data 0 (num_of_Z 0).

(** [const avg = total / (frame.data.length / 4)] *)
Definition brightness_avg (data : PixelData) : num :=
  num_div (brightness_total data)
          (num_div (num_of_Z (Z.of_nat (length data))) (num_of_Z 4)).

(** The argument passed to [setBrightnessWarning]. *)
Definition brightness_warning (data : PixelData) : string :=
  if num_ltb (brightness_avg data) (num_of_Z 60) then BRIGHTNESS_WARNING else "".
End Brightness.

(** ** Values of face-api.js *)

Module faceapi.
(** A face descriptor is a [Float32Array]: every component is a double
    that single precision represents. *)
Abbreviation Descriptor := (list float) (only parsing).

Record LabeledFaceDescriptors := {
  label : string;
  descriptors : list Descriptor
}.

Record FaceMatch := {
  match_label : string;
  distance : float
}.

Record Box := { x : float; y : float; width : float; height : float }.

(** One element of [resized]: a detection with its descriptor, its box
    already scaled to the display size. *)
Record Detection := {
  box : Box;
  descriptor : Descriptor
}.
End faceapi.
Import faceapi.

(** ** JSON *)

(** The values [JSON.parse] produces, and the values [JSON.stringify] is given. *)
Inductive JSValue : Type :=
| JNull
| JBool (b : bool)
| JNumber (x : float)
| JString (s : string)
| JArray (items : list JSValue)
| JObject (fields : list (string * JSValue)).

(** A string kept in [localStorage]: either a JSON text, stood for by the
    document it denotes, or a string that is no JSON text. *)
Inductive StoredText : Type :=
| JsonText (doc : JSValue)
| OtherText (s : string).

Definition is_neg_zero (x : float) : bool :=
  PrimFloat.is_zero x && PrimFloat.get_sign x.

(** How a number reads back after [JSON.stringify]: NaN and the infinities
    are written [null], negative zero is written [0], every other double is
    written with digits that denote it again. *)
Definition number_image (x : float) : JSValue :=
  if PrimFloat.is_nan x || PrimFloat.is_infinity x then JNull
  else if is_neg_zero x then JNumber PrimFloat.zero
  else JNumber x.

Fixpoint json_image (v : JSValue) : JSValue :=
  match v with
  | JNumber x => number_image x
  | JArray items => JArray (List.map json_image items)
  | JObject fields =>
      JObject (List.map (fun kv => match kv with (k, w) => (k, json_image w) end) fields)
  | JNull | JBool _ | JString _ => v
  end.

Definition JSON_stringify (v : JSValue) : StoredText := JsonText (json_image v).

(** [None] stands for a thrown exception, here the SyntaxError. *)
Definition JSON_parse (text : StoredText) : option JSValue :=
  match text with
  | JsonText doc => Some doc
  | OtherText _ => None
  end.

(** [if (saved)]: every string but the empty one is truthy. *)
Definition truthy (text : StoredText) : bool :=
  match text with
  | JsonText _ => true
  | OtherText s => negb (String.eqb s "")
  end.

(** [item.key] for [key] one of ["label"], ["descriptors"].  The outer
    [None] is the TypeError of reading a property of [null]; the inner one is
    [undefined].  In a parsed object the last of several equal keys counts. *)
Fixpoint last_field (key : string) (fields : list (string * JSValue)) : option JSValue :=
  match fields with
  | [] => None
  | (k, v) :: rest =>
      match last_field key rest with
      | Some w => Some w
      | None => if String.eqb k key then Some v else None
      end
  end.

Definition get_property (v : JSValue) (key : string) : option (option JSValue) :=
  match v with
  | JNull => None
  | JObject fields => Some (last_field key fields)
  | JBool _ | JNumber _ | JString _ | JArray _ => Some None
  end.

(** The conversion of a double to single precision and back, which storing
    into a [Float32Array] and reading again performs. *)
Definition SF_to_binary32 (x : spec_float) : spec_float :=
  match x with
  | S754_finite s m e => binary_round 24 128 s m e
  | _ => x
  end.

Definition SF_to_binary64 (x : spec_float) : spec_float :=
  match x with
  | S754_finite s m e => binary_round 53 1024 s m e
  | _ => x
  end.

Definition fround (x : float) : float :=
  SF2Prim (SF_to_binary64 (SF_to_binary32 (Prim2SF x))).

(** The components of a descriptor are single-precision values. *)
Definition is_float32 (x : float) : Prop := fround x = x.

(** ** What the component is given: face-api.js and the coercions of JavaScript

    The repository calls these and does not contain them. *)
Class Platform := {
  (** [new faceapi.FaceMatcher(inputs, threshold).findBestMatch(query)], as a
      function of the labelled descriptors the matcher reads. *)
  findBestMatch : list LabeledFaceDescriptors -> float -> Descriptor -> FaceMatch;
  (** [match.toString()] *)
  FaceMatch_toString : FaceMatch -> string;
  (** [new faceapi.LabeledFaceDescriptors(label, ds)] for a [label] that is
      no string ([None]: [undefined]); it may throw. *)
  LabeledFaceDescriptors_of_nonstring :
    option JSValue -> list Descriptor -> option LabeledFaceDescriptors;
  (** [Number(v)] for a string, an array or an object. *)
  ToNumber_other : JSValue -> float;
  (** [new Float32Array(v)] for [v] that is no array; it may throw. *)
  Float32Array_of_nonarray : JSValue -> option Descriptor
}.

(** ** The state of the component and of the page *)

Abbreviation loc := nat (only parsing).

(** A callback handed to [setInterval] or [setTimeout], with what it closes over. *)
Inductive Callback : Type :=
| PollTick (matcher_inputs : loc) (threshold : float)
| StopSession (detectInterval : nat).

Record Timer := {
  timer_id : nat;
  timer_due : Z;                 (* milliseconds *)
  timer_period : option Z;       (* [Some p]: set by [setInterval] *)
  timer_callback : Callback
}.

(** An [await] in progress, with what its continuation closes over. *)
Inductive Pending : Type :=
| AwaitSingleFace (name : string)
| AwaitAllFaces (matcher_inputs : loc) (threshold : float).

Inductive Event : Type :=
| Alert (msg : string)
| ConsoleError (msg : string)
| CallDetectSingleFace
| CallDetectAllFaces
| NewFaceMatcher (inputs : loc) (threshold : float)
| NewCanvas
| ClearCanvas
| DrawBox (b : Box) (label : string).

Record State := {
  (* array objects, by location *)
  heap : gmap loc (list LabeledFaceDescriptors);
  (* React state *)
  descriptors : loc;
  name : string;
  detecting : bool;
  brightnessWarning : string;
  (* the page *)
  localStorage : gmap string StoredText;
  now : Z;
  timers : list Timer;
  next_timer_id : nat;
  pending : list Pending;
  log : list Event                (* latest first *)
}.

Definition STORAGE_KEY : string := "face_descriptors".

(** The array that the state variable [descriptors] refers to. *)
Definition array_at (s : State) (l : loc) : list LabeledFaceDescriptors :=
  default [] (heap s !! l).

Definition registry (s : State) : list LabeledFaceDescriptors :=
  array_at s (descriptors s).

Definition emit (e : Event) (s : State) : State :=
  {| heap := heap s; descriptors := descriptors s; name := name s;
     detecting := detecting s; brightnessWarning := brightnessWarning s;
     localStorage := localStorage s; now := now s; timers := timers s;
     next_timer_id := next_timer_id s; pending := pending s;
     log := e :: log s |}.

Definition setName (v : string) (s : State) : State :=
  {| heap := heap s; descriptors := descriptors s; name := v;
     detecting := detecting s; brightnessWarning := brightnessWarning s;
     localStorage := localStorage s; now := now s; timers := timers s;
     next_timer_id := next_timer_id s; pending := pending s; log := log s |}.

Definition setDetecting (v : bool) (s : State) : State :=
  {| heap := heap s; descriptors := descriptors s; name := name s;
     detecting := v; brightnessWarning := brightnessWarning s;
     localStorage := localStorage s; now := now s; timers := timers s;
     next_timer_id := next_timer_id s; pending := pending s; log := log s |}.

Definition setBrightnessWarning (v : string) (s : State) : State :=
  {| heap := heap s; descriptors := descriptors s; name := name s;
     detecting := detecting s; brightnessWarning := v;
     localStorage := localStorage s; now := now s; timers := timers s;
     next_timer_id := next_timer_id s; pending := pending s; log := log s |}.

(** [setDescriptors(array)] for a newly built [array]: the array is a new
    object, and the state variable refers to it from now on. *)
Definition setDescriptors (array : list LabeledFaceDescriptors) (s : State) : State :=
  let l := fresh (dom (heap s)) in
  {| heap := <[l := array]> (heap s); descriptors := l; name := name s;
     detecting := detecting s; brightnessWarning := brightnessWarning s;
     localStorage := localStorage s; now := now s; timers := timers s;
     next_timer_id := next_timer_id s; pending := pending s; log := log s |}.

(** [localStorage.setItem(key, text)] *)
Definition setItem (key : string) (text : StoredText) (s : State) : State :=
  {| heap := heap s; descriptors := descriptors s; name := name s;
     detecting := detecting s; brightnessWarning := brightnessWarning s;
     localStorage := <[key := text]> (localStorage s); now := now s;
     timers := timers s; next_timer_id := next_timer_id s;
     pending := pending s; log := log s |}.

Definition set_timers (ts : list Timer) (s : State) : State :=
  {| heap := heap s; descriptors := descriptors s; name := name s;
     detecting := detecting s; brightnessWarning := brightnessWarning s;
     localStorage := localStorage s; now := now s; timers := ts;
     next_timer_id := next_timer_id s; pending := pending s; log := log s |}.

Definition set_now (t : Z) (s : State) : State :=
  {| heap := heap s; descriptors := descriptors s; name := name s;
     detecting := detecting s; brightnessWarning := brightnessWarning s;
     localStorage := localStorage s; now := t; timers := timers s;
     next_timer_id := next_timer_id s; pending := pending s; log := log s |}.

Definition set_pending (ps : list Pending) (s : State) : State :=
  {| heap := heap s; descriptors := descriptors s; name := name s;
     detecting := detecting s; brightnessWarning := brightnessWarning s;
     localStorage := localStorage s; now := now s; timers := timers s;
     next_timer_id := next_timer_id s; pending := ps; log := log s |}.

(** [setInterval(callback, period)] and [setTimeout(callback, delay)]: the
    new timer is due [delay] from now; the result is its id. *)
Definition add_timer (period : option Z) (delay : Z) (cb : Callback) (s : State) : State :=
  {| heap := heap s; descriptors := descriptors s; name := name s;
     detecting := detecting s; brightnessWarning := brightnessWarning s;
     localStorage := localStorage s; now := now s;
     timers := timers s ++
       [{| timer_id := next_timer_id s; timer_due := now s + delay;
           timer_period := period; timer_callback := cb |}];
     next_timer_id := S (next_timer_id s); pending := pending s; log := log s |}.

Definition setInterval (cb : Callback) (period : Z) (s : State) : nat * State :=
  (next_timer_id s, add_timer (Some period) period cb s).

Definition setTimeout (cb : Callback) (delay : Z) (s : State) : nat * State :=
  (next_timer_id s, add_timer None delay cb s).

(** [clearInterval(id)] *)
Definition clearInterval (id : nat) (s : State) : State :=
  set_timers (List.filter (fun t => negb (Nat.eqb (timer_id t) id)) (timers s)) s.

(** ** The handlers of the component *)

(** What the page shows (the [return] of the component). *)
Definition controls_disabled (s : State) : bool := detecting s.

(** *** [checkBrightness]

    [video] is what [getImageData] returns for the current frame, [None]
    when [videoRef.current] is not set. *)
Definition checkBrightness {num : Type} `{JSNumber num}
    (video : option PixelData) (s : State) : State :=
  match video with
  | None => s
  | Some data => setBrightnessWarning (brightness_warning (num := num) data) s
  end.

(** *** Saving: the value handed to [JSON.stringify] in [handleRegister] *)

(** [Array.from(d)] *)
Definition Array_from (d : Descriptor) : JSValue := JArray (List.map JNumber d).

Definition toSave (updated : list LabeledFaceDescriptors) : JSValue :=
  JArray (List.map
    (fun desc =>
       JObject [("label", JString (label desc));
                ("descriptors", JArray (List.map Array_from (faceapi.descriptors desc)))])
    updated).

(** *** The actions the page can take *)

Inductive Action : Type :=
| TypeName (text : string)                       (* [onChange] of the input *)
| ClickRegister
| ClickDetect
| Elapse (ms : Z)                                (* time passes, no timer being due *)
| FireTimer (id : nat) (video : option PixelData)
| ResolveSingleFace (i : nat) (detection : option Detection)
| ResolveAllFaces (i : nat) (resized : list Detection).

Section Handlers.
Context `{Platform}.

(** *** Loading: the effect run when the component is mounted *)

Definition ToNumber (v : JSValue) : float :=
  match v with
  | JNull => PrimFloat.zero
  | JBool b => if b then PrimFloat.one else PrimFloat.zero
  | JNumber x => x
  | JString _ | JArray _ | JObject _ => ToNumber_other v
  end.

(** [new Float32Array(desc)] *)
Definition new_Float32Array (desc : JSValue) : option Descriptor :=
  match desc with
  | JArray items => Some (List.map (fun v => fround (ToNumber v)) items)
  | _ => Float32Array_of_nonarray desc
  end.

(** [new faceapi.LabeledFaceDescriptors(label, ds)] *)
Definition new_LabeledFaceDescriptors (lbl : option JSValue) (ds : list Descriptor)
    : option LabeledFaceDescriptors :=
  match lbl with
  | Some (JString l) => Some {| label := l; faceapi.descriptors := ds |}
  | _ => LabeledFaceDescriptors_of_nonstring lbl ds
  end.

(** The function mapped over [parsed]. *)
Definition load_item (item : JSValue) : option LabeledFaceDescriptors :=
  lbl ← get_property item "label";
  ds ← get_property item "descriptors";
  arrays ← match ds with
           | Some (JArray descs) => mapM new_Float32Array descs
           | _ => None                  (* [.map] of what is no array *)
           end;
  new_LabeledFaceDescriptors lbl arrays.

Definition load_parsed (parsed : JSValue) : option (list LabeledFaceDescriptors) :=
  match parsed with
  | JArray items => mapM load_item items
  | _ => None
  end.

Definition load_saved (s : State) : State :=
  match localStorage s !! STORAGE_KEY with
  | None => s
  | Some saved =>
      if truthy saved then
        match JSON_parse saved ≫= load_parsed with
        | Some loaded => setDescriptors loaded s
        | None => emit (ConsoleError "Failed to load face descriptors from storage") s
        end
      else s
  end.

(** The component before its first effect, over a given [localStorage]. *)
Definition initial (storage : gmap string StoredText) : State :=
  {| heap := {[ 0%nat := [] ]}; descriptors := 0%nat; name := "";
     detecting := false; brightnessWarning := "";
     localStorage := storage; now := 0; timers := []; next_timer_id := 1;
     pending := []; log := [] |}.

Definition mount (storage : gmap string StoredText) : State :=
  load_saved (initial storage).

(** *** [handleRegister]

    The handler runs to its [await]; what follows the [await] runs when
    the detector has answered, with the [name] the handler started with. *)
Definition handleRegister_start (s : State) : State * option string :=
  if String.eqb (name s) "" then
    (emit (Alert "Please enter a name before registering!") s, None)
  else
    (emit CallDetectSingleFace s, Some (name s)).

Definition handleRegister_resume (name0 : string) (detection : option Detection)
    (s : State) : State :=
  match detection with
  | None => emit (Alert "No face detected. Please try again.") s
  | Some d =>
      let newDescriptor := {| label := name0; faceapi.descriptors := [descriptor d] |} in
      let updated := (registry s ++ [newDescriptor])%list in
      let s := setItem STORAGE_KEY (JSON_stringify (toSave updated)) s in
      let s := setDescriptors updated s in
      let s := emit (Alert (name0 ++ " registered successfully!")%string) s in
      setName "" s
  end.

(** The handler from the click to its end, the detector answering [detection]. *)
Definition handleRegister (detection : option Detection) (s : State) : State :=
  match handleRegister_start s with
  | (s1, Some name0) => handleRegister_resume name0 detection s1
  | (s1, None) => s1
  end.

(** *** [handleDetect] *)

(** 0.6, the double nearest to it. *)
Definition THRESHOLD : float := 0x1.3333333333333p-1%float.

Definition handleDetect (s : State) : State :=
  if (length (registry s) =? 0)%nat then
    emit (Alert "Please register at least one face first!") s
  else
    let s := setDetecting true s in
    let faceMatcher := descriptors s in
    let s := emit (NewFaceMatcher faceMatcher THRESHOLD) s in
    let s := emit NewCanvas s in
    let '(detectInterval, s) := setInterval (PollTick faceMatcher THRESHOLD) 300 s in
    let '(_, s) := setTimeout (StopSession detectInterval) 30000 s in
    s.

(** The callback of the interval, to its [await]. *)
Definition poll_tick_start (video : option PixelData) (matcher : loc) (threshold : float)
    (s : State) : State :=
  let s := checkBrightness (num := float) video s in
  let s := emit CallDetectAllFaces s in
  set_pending (pending s ++ [AwaitAllFaces matcher threshold]) s.

(** [match.label === "unknown" ? "Unknown" : match.toString()] *)
Definition render_label (m : FaceMatch) : string :=
  if String.eqb (match_label m) "unknown" then "Unknown" else FaceMatch_toString m.

(** The body of [resized.forEach]. *)
Definition draw_detection (matcher : loc) (threshold : float) (s : State) (d : Detection)
    : State :=
  let m := findBestMatch (array_at s matcher) threshold (descriptor d) in
  emit (DrawBox (box d) (render_label m)) s.

(** The callback of the interval, after its [await]. *)
Definition poll_tick_resume (matcher : loc) (threshold : float) (resized : list Detection)
    (s : State) : State :=
  fold_left (draw_detection matcher threshold) resized (emit ClearCanvas s).

(** *** Timers *)

Definition find_timer (id : nat) (ts : list Timer) : option Timer :=
  List.find (fun t => Nat.eqb (timer_id t) id) ts.

(** No timer is due before [t]. *)
Definition earliest (t : Timer) (ts : list Timer) : bool :=
  forallb (fun t' => timer_due t <=? timer_due t') ts.

Definition run_callback (video : option PixelData) (cb : Callback) (s : State) : State :=
  match cb with
  | PollTick matcher threshold => poll_tick_start video matcher threshold s
  | StopSession detectInterval => setDetecting false (clearInterval detectInterval s)
  end.

(** An interval that its callback has not cleared is due again one period later. *)
Definition rearm (id : nat) (period : Z) (s : State) : State :=
  set_timers
    (List.map (fun t =>
       if Nat.eqb (timer_id t) id
       then {| timer_id := timer_id t; timer_due := timer_due t + period;
               timer_period := timer_period t; timer_callback := timer_callback t |}
       else t) (timers s)) s.

Definition fire (video : option PixelData) (t : Timer) (s : State) : State :=
  let s := set_now (Z.max (now s) (timer_due t)) s in
  match timer_period t with
  | None => run_callback video (timer_callback t) (clearInterval (timer_id t) s)
  | Some period => rearm (timer_id t) period (run_callback video (timer_callback t) s)
  end.

(** *** One action.  [None]: the page cannot take it in this state (a
    disabled control, a timer that is not the next one, no such [await]). *)
Definition exec (a : Action) (s : State) : option State :=
  match a with
  | TypeName text =>
      if controls_disabled s then None else Some (setName text s)
  | ClickRegister =>
      if controls_disabled s then None else
      match handleRegister_start s with
      | (s1, Some name0) => Some (set_pending (pending s1 ++ [AwaitSingleFace name0]) s1)
      | (s1, None) => Some s1
      end
  | ClickDetect =>
      if controls_disabled s then None else Some (handleDetect s)
  | Elapse ms =>
      if (0 <=? ms) && forallb (fun t => now s + ms <=? timer_due t) (timers s)
      then Some (set_now (now s + ms) s) else None
  | FireTimer id video =>
      match find_timer id (timers s) with
      | Some t => if earliest t (timers s) then Some (fire video t s) else None
      | None => None
      end
  | ResolveSingleFace i detection =>
      match pending s !! i with
      | Some (AwaitSingleFace name0) =>
          Some (handleRegister_resume name0 detection
                  (set_pending (delete i (pending s)) s))
      | _ => None
      end
  | ResolveAllFaces i resized =>
      match pending s !! i with
      | Some (AwaitAllFaces matcher threshold) =>
          Some (poll_tick_resume matcher threshold resized
                  (set_pending (delete i (pending s)) s))
      | _ => None
      end
  end.

Fixpoint run (acts : list Action) (s : State) : option State :=
  match acts with
  | [] => Some s
  | a :: rest =>
      match exec a s with
      | Some s' => run rest s'
      | None => None
      end
  end.
End Handlers.

(** ** The brightness of a frame, as the specification words it *)

Record Pixel := { red : byte; green : byte; blue : byte; alpha : byte }.

Definition pixel_bytes (p : Pixel) : list byte := [red p; green p; blue p; alpha p].

(** The pixel buffer of a frame: four bytes per pixel, row after row. *)
Definition image_data (pixels : list Pixel) : PixelData := flat_map pixel_bytes pixels.




Definition uniform_pixel (v : byte) : Pixel :=
  {| red := v; green := v; blue := v; alpha := v |}.


(** ** Messages, and what the statements below are about *)

Definition NAME_MISSING : string := "Please enter a name before registering!".
Definition NO_FACE : string := "No face detected. Please try again.".
Definition NO_IDENTITIES : string := "Please register at least one face first!".

(** The number of elements of the array kept under the storage key. *)
Definition persisted_length (s : State) : option nat :=
  match localStorage s !! STORAGE_KEY with
  | Some (JsonText (JArray items)) => Some (length items)
  | _ => None
  end.

(** What is kept under the storage key read back as the loader reads it. *)
Definition persist (reg : list LabeledFaceDescriptors) : StoredText :=
  JSON_stringify (toSave reg).

Definition reload `{Platform} (text : StoredText) : option (list LabeledFaceDescriptors) :=
  JSON_parse text ≫= load_parsed.

(** A component that JSON text carries unchanged: a finite single-precision
    value other than negative zero. *)
Definition storable (x : float) : Prop :=
  PrimFloat.is_nan x = false /\ PrimFloat.is_infinity x = false /\
  is_neg_zero x = false /\ is_float32 x.

Definition storable_registry (reg : list LabeledFaceDescriptors) : Prop :=
  Forall (fun identity => Forall (Forall storable) (faceapi.descriptors identity)) reg.

(** A component as it is after saving and loading. *)
Definition reloaded_number `{Platform} (x : float) : float :=
  fround (ToNumber (number_image x)).

Definition reloaded_identity `{Platform} (identity : LabeledFaceDescriptors)
    : LabeledFaceDescriptors :=
  {| label := label identity;
     faceapi.descriptors :=
       List.map (List.map reloaded_number) (faceapi.descriptors identity) |}.

(** The two timers of a recognition session entered at time [t0], the
    interval having fired [k - 1] times. *)
Definition session_timers (n : nat) (t0 : Z) (k : Z) (matcher : nat) : list Timer :=
  [ {| timer_id := n; timer_due := t0 + 300 * k; timer_period := Some 300;
       timer_callback := PollTick matcher THRESHOLD |};
    {| timer_id := S n; timer_due := t0 + 30000; timer_period := None;
       timer_callback := StopSession n |} ].

(** The session entered at [t0] is running, [k - 1] ticks behind it: its
    timeout has not fired, and the clock has not passed a timer that is due. *)
Definition session_at (n : nat) (t0 : Z) (matcher : nat) (k : Z) (s : State) : Prop :=
  detecting s = true /\ now s <= t0 + 30000 /\
  1 <= k <= 101 /\ now s <= t0 + 300 * k /\
  timers s = session_timers n t0 k matcher.


Definition is_stop (n : nat) (a : Action) : bool :=
  match a with
  | FireTimer id _ => Nat.eqb id (S n)
  | _ => false
  end.

(** The labels a tick of a session draws for [resized], read off [reg]. *)
Definition drawn `{Platform} (reg : list LabeledFaceDescriptors) (threshold : float)
    (resized : list Detection) : list Event :=
  List.map (fun d => DrawBox (box d)
                       (render_label (findBestMatch reg threshold (descriptor d))))
           resized.

(** A platform to instantiate statements with.  Its matcher answers with
    the first identity it reads, whatever the query. *)
Definition stub_platform : Platform := {|
  findBestMatch := fun reg _ _ =>
    match reg with
    | [] => {| match_label := "unknown"; distance := PrimFloat.one |}
    | identity :: _ => {| match_label := label identity; distance := PrimFloat.zero |}
    end;
  FaceMatch_toString := fun m => match_label m;
  LabeledFaceDescriptors_of_nonstring := fun _ _ => None;
  ToNumber_other := fun _ => PrimFloat.nan;
  Float32Array_of_nonarray := fun _ => None
|}.

Definition sample_detection : Detection :=
  {| box := {| x := 0; y := 0; width := 1; height := 1 |};
     descriptor := [0.5%float; (-0.25)%float] |}.

(** A freshly mounted component, "Alice" typed into the name input. *)
Definition sample_state : State := setName "Alice" (initial ∅).

(** The same after one registration. *)
Definition sample_registered : State := handleRegister (Some sample_detection) sample_state.

(** The same, "Bob" typed and Register clicked, the detector not yet
    having answered. *)
Definition sample_in_flight : State :=
  set_pending [AwaitSingleFace "Bob"]
    (emit CallDetectSingleFace (setName "Bob" sample_registered)).

(** ** What the further statements are about *)

(** What one round of the loop adds for a pixel, in whatever arithmetic. *)
Definition pixel_term {num : Type} `{JSNumber num} (p : Pixel) : num :=
  num_div
    (num_add (num_add (num_of_Z (byte_value (red p))) (num_of_Z (byte_value (green p))))
             (num_of_Z (byte_value (blue p))))
    (num_of_Z 3).

(** Two pixels of the same colour, whatever their alpha. *)
Definition same_colour (p q : Pixel) : Prop :=
  red p = red q /\ green p = green q /\ blue p = blue q.


(** Local storage holds what was saved for the registry as it is. *)
Definition in_sync (s : State) : Prop :=
  localStorage s !! STORAGE_KEY = Some (persist (registry s)).


(** How often the interval with id [n] fires in a run. *)
Definition is_tick (n : nat) (a : Action) : bool :=
  match a with
  | FireTimer id _ => Nat.eqb id n
  | _ => false
  end.

Definition count_ticks (n : nat) (acts : list Action) : nat :=
  length (List.filter (is_tick n) acts).


(** A session entered at time 0 from [sample_registered], its hundredth
    tick due together with its timeout, one call of the detector awaited. *)
Definition sample_late_session : State :=
  set_pending [AwaitAllFaces 1 THRESHOLD]
    (set_now 30000
       (set_timers (session_timers 1 0 100 1) (setDetecting true sample_registered))).

(** * Properties *)

(** ** Brightness monitor *)

Lemma length_image_data (pixels : list Pixel) :
  length (image_data pixels) = (4 * length pixels)%nat.
Proof.
  induction pixels as [|p pixels IH]; [reflexivity|].
  change (image_data (p :: pixels)) with (pixel_bytes p ++ image_data pixels)%list.
  rewrite length_app, IH. simpl. lia.
Qed.

Lemma image_data_app (pre rest : list Pixel) :
  image_data (pre ++ rest) = (image_data pre ++ image_data rest)%list.
Proof. unfold image_data. apply flat_map_app. Qed.

Lemma data_at_pixel {num : Type} `{JSNumber num} (pre : list Pixel) (p : Pixel)
    (tail : PixelData) (j : nat) (b : byte) :
  pixel_bytes p !! j = Some b ->
  data_at (num := num) (image_data pre ++ pixel_bytes p ++ tail)%list
          (4 * length pre + j) = num_of_Z (byte_value b).
Proof.
  intros Hj. unfold data_at.
  rewrite <- (length_image_data pre).
  rewrite lookup_app_r by lia.
  replace (length (image_data pre) + j - length (image_data pre))%nat with j by lia.
  rewrite (lookup_app_l_Some _ _ _ _ Hj). reflexivity.
Qed.

























(** ** Registration *)

(** The state variable refers to the array just built. *)
Lemma registry_setDescriptors (array : list LabeledFaceDescriptors) (s : State) :
  registry (setDescriptors array s) = array.
Proof.
  unfold registry, array_at, setDescriptors. simpl.
  rewrite lookup_insert_eq. reflexivity.
Qed.

(** The array object the state referred to before is still what it was. *)
Lemma setDescriptors_keeps (array : list LabeledFaceDescriptors) (s : State) (l : nat) :
  is_Some (heap s !! l) ->
  array_at (setDescriptors array s) l = array_at s l.
Proof.
  intros Hl. unfold array_at, setDescriptors. simpl.
  rewrite lookup_insert_ne; [reflexivity|].
  intros Heq. subst l. apply (is_fresh (dom (heap s))). apply elem_of_dom. exact Hl.
Qed.


Lemma name_nonempty (s : State) : name s <> "" -> String.eqb (name s) "" = false.
Proof. intros Hne. apply String.eqb_neq. exact Hne. Qed.

(** What a registration that finds a face does, step by step. *)
Lemma handleRegister_found (s : State) (d : Detection) :
  name s <> "" ->
  handleRegister (Some d) s
  = setName ""
      (emit (Alert (name s ++ " registered successfully!"))
         (setDescriptors
            (registry s ++ [{| label := name s; faceapi.descriptors := [descriptor d] |}])
            (setItem STORAGE_KEY
               (JSON_stringify
                  (toSave (registry s ++
                     [{| label := name s; faceapi.descriptors := [descriptor d] |}])))
               (emit CallDetectSingleFace s)))).
Proof.
  intros Hne. unfold handleRegister, handleRegister_start.
  rewrite (name_nonempty s Hne). reflexivity.
Qed.

Lemma handleRegister_no_name (s : State) (detection : option Detection) :
  name s = "" -> handleRegister detection s = emit (Alert NAME_MISSING) s.
Proof.
  intros Hname. unfold handleRegister, handleRegister_start.
  rewrite Hname. reflexivity.
Qed.

Lemma handleRegister_no_face (s : State) :
  name s <> "" ->
  handleRegister None s = emit (Alert NO_FACE) (emit CallDetectSingleFace s).
Proof.
  intros Hne. unfold handleRegister, handleRegister_start.
  rewrite (name_nonempty s Hne). reflexivity.
Qed.


(** C4.  A registration with an empty name, or one in which the detector
    finds no face, ends with an alert and changes neither the registry nor
    local storage (nor any array object, the name or the session). *)
Theorem C4_failed_registration_changes_nothing (s : State) (detection : option Detection) :
  name s = "" \/ detection = None ->
  let s' := handleRegister detection s in
  (exists msg rest, log s' = Alert msg :: rest /\ (msg = NAME_MISSING \/ msg = NO_FACE)) /\
  registry s' = registry s /\
  length (registry s') = length (registry s) /\
  heap s' = heap s /\
  descriptors s' = descriptors s /\
  localStorage s' = localStorage s /\
  persisted_length s' = persisted_length s /\
  name s' = name s /\
  detecting s' = detecting s.
Proof.
  intros Hfail s'.
  assert (Hcases : s' = emit (Alert NAME_MISSING) s \/
                   s' = emit (Alert NO_FACE) (emit CallDetectSingleFace s)).
  { subst s'. destruct (String.eqb_spec (name s) "") as [Hname|Hname].
    - left. apply handleRegister_no_name. exact Hname.
    - destruct Hfail as [Hempty| ->]; [contradiction|].
      right. apply handleRegister_no_face. exact Hname. }
  destruct Hcases as [-> | ->]; repeat split; eauto.
Qed.

(** Membership of an event in an explicit list of events. *)
Ltac event_cases :=
  simpl; intros;
  repeat match goal with
         | H : _ \/ _ |- _ => destruct H
         | H : False |- _ => destruct H
         | H : @eq Event _ _ |- _ => discriminate H
         | H : @eq (option _) _ _ |- _ => discriminate H
         end;
  try tauto.

Lemma length_append (a b : string) :
  String.length (a ++ b) = (String.length a + String.length b)%nat.
Proof. induction a as [|c a IH]; simpl; [reflexivity | rewrite IH; reflexivity]. Qed.

(** The alert of a successful registration is never the input error: were
    they equal, the name would have 14 characters and the characters after
    them would spell the same words. *)
Lemma success_alert_differs (n : string) :
  Alert (n ++ " registered successfully!") <> Alert NAME_MISSING.
Proof.
  intros Heq. injection Heq as Heq.
  pose proof (f_equal String.length Heq) as Hlen.
  rewrite length_append in Hlen. simpl in Hlen.
  pose proof (append_correct2 n " registered successfully!" 1) as Hget.
  rewrite Heq in Hget.
  replace (1 + String.length n)%nat with 15%nat in Hget by lia.
  vm_compute in Hget. discriminate Hget.
Qed.

(** C10.  The input error is raised exactly when the name is the empty
    string, and then the detector is not called; with any other name, one
    of blanks included, the detector is called and the name is registered
    as it stands. *)
Theorem C10_input_error_iff_name_empty (s : State) (detection : option Detection) :
  let s' := handleRegister detection s in
  exists events : list Event,
    log s' = (events ++ log s)%list /\
    (In (Alert NAME_MISSING) events <-> name s = "") /\
    (In CallDetectSingleFace events <-> name s <> "") /\
    (forall d, name s <> "" -> detection = Some d ->
       registry s' = (registry s ++
         [{| label := name s; faceapi.descriptors := [descriptor d] |}])%list).
Proof.
  intros s'. subst s'.
  destruct (String.eqb_spec (name s) "") as [Hname|Hname].
  - rewrite (handleRegister_no_name s detection Hname).
    exists [Alert NAME_MISSING]. repeat split; event_cases.
  - destruct detection as [d|].
    + rewrite (handleRegister_found s d Hname).
      exists [Alert (name s ++ " registered successfully!"); CallDetectSingleFace].
      repeat split; try solve [event_cases].
      * simpl. intros [Hin|[Hin|[]]]; [|discriminate Hin].
        exfalso. exact (success_alert_differs _ Hin).
      * intros d' _ [= <-]. apply registry_setDescriptors.
    + rewrite (handleRegister_no_face s Hname).
      exists [Alert NO_FACE; CallDetectSingleFace].
      repeat split; event_cases.
Qed.


Lemma C4_failed_registration_changes_nothing_witness :
  (name sample_state = "" \/ @None Detection = None) /\
  registry (handleRegister None sample_state) = registry sample_state /\
  localStorage (handleRegister None sample_state) = localStorage sample_state.
Proof.
  split; [right; reflexivity|].
  destruct (C4_failed_registration_changes_nothing sample_state None
              ltac:(right; reflexivity))
    as (_ & Hreg & _ & _ & _ & Hstore & _).
  split; [exact Hreg | exact Hstore].
Defined.

(** ** Entering a recognition session *)

Lemma length_zero_nil {A : Type} (l : list A) : (length l =? 0)%nat = true <-> l = [].
Proof.
  rewrite Nat.eqb_eq. split; [apply length_zero_iff_nil | intros ->; reflexivity].
Qed.

Lemma handleDetect_empty (s : State) :
  registry s = [] -> handleDetect s = emit (Alert NO_IDENTITIES) s.
Proof.
  intros Hreg. unfold handleDetect. rewrite Hreg. reflexivity.
Qed.

(** What entering a session does, step by step. *)
Lemma handleDetect_nonempty (s : State) :
  registry s <> [] ->
  handleDetect s
  = add_timer None 30000 (StopSession (next_timer_id s))
      (add_timer (Some 300) 300 (PollTick (descriptors s) THRESHOLD)
         (emit NewCanvas
            (emit (NewFaceMatcher (descriptors s) THRESHOLD) (setDetecting true s)))).
Proof.
  intros Hreg. unfold handleDetect.
  destruct (length (registry s) =? 0)%nat eqn:Hlen.
  - apply length_zero_nil in Hlen. contradiction.
  - reflexivity.
Qed.

(** C6.  When the registry is empty, a request for a recognition session
    ends with the alert that a face must be registered first, and changes
    nothing else: the session flag, the timers and the awaited calls are as
    they were, no matcher is built; an idle page stays idle, its controls
    enabled. *)
Theorem C6_detect_with_empty_registry_stays_idle `{Platform} (s : State) :
  registry s = [] ->
  let s' := handleDetect s in
  log s' = Alert NO_IDENTITIES :: log s /\
  detecting s' = detecting s /\
  timers s' = timers s /\
  pending s' = pending s /\
  heap s' = heap s /\ descriptors s' = descriptors s /\
  localStorage s' = localStorage s /\
  (detecting s = false ->
   exec ClickDetect s = Some s' /\ detecting s' = false /\ controls_disabled s' = false /\
   forall id video, find_timer id (timers s) = None ->
                    exec (FireTimer id video) s' = None).
Proof.
  intros Hreg s'. subst s'. rewrite (handleDetect_empty s Hreg).
  do 7 (split; [reflexivity|]).
  intros Hidle. split; [|split; [|split]].
  - unfold exec, controls_disabled. rewrite Hidle, (handleDetect_empty s Hreg). reflexivity.
  - exact Hidle.
  - exact Hidle.
  - intros id video Hfind. unfold exec. simpl. rewrite Hfind. reflexivity.
Qed.

Lemma C6_detect_with_empty_registry_stays_idle_witness :
  registry (initial ∅) = [] /\
  exec (H := stub_platform) ClickDetect (initial ∅)
  = Some (emit (Alert NO_IDENTITIES) (initial ∅)).
Proof.
  split; [reflexivity|].
  destruct (C6_detect_with_empty_registry_stays_idle (H := stub_platform)
              (initial ∅) eq_refl)
    as (_ & _ & _ & _ & _ & _ & _ & Hidle).
  destruct (Hidle eq_refl) as (Hexec & _). exact Hexec.
Defined.

(** ** Matching *)

(** C1, where the code departs from it.  "unknown" is a name like any
    other to registration: it becomes the label of the new identity.  A
    match that carries this label, at whatever distance, is drawn as
    "Unknown" with the distance left out: so is the face of a registered
    person named "unknown" whom the matcher has recognised. *)
Theorem C1_identity_named_unknown_is_drawn_Unknown `{Platform}
    (s : State) (d probe : Detection) (dist : float) (matcher : nat) :
  registry (handleRegister (Some d) (setName "unknown" s))
  = (registry s ++ [{| label := "unknown"; faceapi.descriptors := [descriptor d] |}])%list /\
  render_label {| match_label := "unknown"; distance := dist |} = "Unknown" /\
  (findBestMatch (array_at s matcher) THRESHOLD (descriptor probe)
   = {| match_label := "unknown"; distance := dist |} ->
   log (poll_tick_resume matcher THRESHOLD [probe] s)
   = DrawBox (box probe) "Unknown" :: ClearCanvas :: log s).
Proof.
  split; [|split].
  - rewrite handleRegister_found by discriminate. apply registry_setDescriptors.
  - reflexivity.
  - intros Hmatch. unfold poll_tick_resume, draw_detection. simpl.
    change (array_at (emit ClearCanvas s) matcher) with (array_at s matcher).
    rewrite Hmatch. reflexivity.
Qed.

(** ** Saving and loading the registry *)

Lemma mapM_total {A B C : Type} (f : B -> option C) (h : A -> B) (g : A -> C)
    (l : list A) :
  (forall a, f (h a) = Some (g a)) -> mapM f (List.map h l) = Some (List.map g l).
Proof.
  intros Hf. induction l as [|a l IH]; [reflexivity|].
  cbn. rewrite Hf. cbn. cbn in IH. rewrite IH. reflexivity.
Qed.

Section SaveLoad.
Context `{Platform}.

(** One descriptor, saved and loaded. *)
Lemma reload_descriptor (d : list float) :
  new_Float32Array (json_image (Array_from d)) = Some (List.map reloaded_number d).
Proof.
  unfold Array_from, new_Float32Array. cbn [json_image].
  rewrite !List.map_map. reflexivity.
Qed.

(** One identity, saved and loaded. *)
Lemma reload_identity (identity : LabeledFaceDescriptors) :
  load_item
    (json_image
       (JObject [("label", JString (label identity));
                 ("descriptors",
                  JArray (List.map Array_from (faceapi.descriptors identity)))]))
  = Some (reloaded_identity identity).
Proof.
  unfold load_item. cbn [json_image List.map get_property last_field].
  cbn. rewrite List.map_map.
  rewrite (mapM_total _ _ (List.map reloaded_number)).
  - reflexivity.
  - intros d. apply reload_descriptor.
Qed.

(** Loading what was saved always succeeds, and gives the registry with
    every component as JSON text carries it. *)
Lemma reload_persist (reg : list LabeledFaceDescriptors) :
  reload (persist reg) = Some (List.map reloaded_identity reg).
Proof.
  unfold reload, persist, JSON_stringify, JSON_parse, toSave.
  cbn [json_image mbind option_bind load_parsed].
  rewrite List.map_map.
  apply mapM_total.
  intros identity. apply reload_identity.
Qed.

Lemma reloaded_number_storable (x : float) : storable x -> reloaded_number x = x.
Proof.
  intros (Hnan & Hinf & Hzero & Hf32).
  unfold reloaded_number, number_image. rewrite Hnan, Hinf, Hzero. exact Hf32.
Qed.

Lemma reloaded_identity_storable (identity : LabeledFaceDescriptors) :
  Forall (Forall storable) (faceapi.descriptors identity) ->
  reloaded_identity identity = identity.
Proof.
  intros Hall. destruct identity as [l ds]. unfold reloaded_identity. simpl in *.
  f_equal. induction Hall as [|d ds Hd Hall IH]; [reflexivity|].
  simpl. f_equal; [|exact IH].
  clear IH Hall. induction Hd as [|x d Hx Hd IH]; [reflexivity|].
  simpl. rewrite (reloaded_number_storable x Hx), IH. reflexivity.
Qed.
End SaveLoad.

(** C5, as amended.  A registry all of whose embedding components are
    finite single-precision values other than negative zero is loaded from
    what was saved for it exactly as it was: as many identities, with the
    same labels and the same vectors, component for component. *)
Theorem C5_storable_registry_round_trips `{Platform} (reg : list LabeledFaceDescriptors) :
  storable_registry reg ->
  reload (persist reg) = Some reg.
Proof.
  intros Hall. rewrite reload_persist. f_equal.
  induction Hall as [|identity reg Hid Hall IH]; [reflexivity|].
  simpl. rewrite (reloaded_identity_storable identity Hid), IH. reflexivity.
Qed.

Lemma C5_storable_registry_round_trips_witness :
  storable_registry (registry sample_registered) /\
  reload (H := stub_platform) (persist (registry sample_registered))
  = Some (registry sample_registered).
Proof.
  assert (Hall : storable_registry (registry sample_registered)).
  { repeat constructor. }
  split; [exact Hall|].
  exact (C5_storable_registry_round_trips (H := stub_platform)
           (registry sample_registered) Hall).
Defined.

(** C5, as stated, fails: a component that is NaN is saved as [null] and
    loaded as 0. *)
Lemma C5_counterexample_nan :
  ~ (forall (H : Platform) (reg : list LabeledFaceDescriptors),
       reload (persist reg) = Some reg).
Proof.
  intros Hclaim.
  specialize (Hclaim stub_platform
                [{| label := "A"; faceapi.descriptors := [[PrimFloat.nan]] |}]).
  apply (f_equal (fun loaded =>
           match loaded with
           | Some [identity] =>
               match faceapi.descriptors identity with
               | [[component]] => PrimFloat.is_nan component
               | _ => false
               end
           | _ => false
           end)) in Hclaim.
  vm_compute in Hclaim. discriminate Hclaim.
Qed.

(** ** The recognition session *)

Section Session.
Context `{Platform}.

(** What a tick draws, and that it touches nothing but the canvas. *)
Lemma fold_draw_detection (matcher : nat) (threshold : float)
    (resized : list Detection) (s : State) :
  fold_left (draw_detection matcher threshold) resized s
  = {| heap := heap s; descriptors := descriptors s; name := name s;
       detecting := detecting s; brightnessWarning := brightnessWarning s;
       localStorage := localStorage s; now := now s; timers := timers s;
       next_timer_id := next_timer_id s; pending := pending s;
       log := (rev (drawn (array_at s matcher) threshold resized) ++ log s)%list |}.
Proof.
  revert s. induction resized as [|d resized IH]; intros s.
  - destruct s; reflexivity.
  - cbn [fold_left]. rewrite IH. unfold draw_detection at 1 2 3 4 5 6 7 8 9 10 11.
    cbn [heap descriptors name detecting brightnessWarning localStorage now timers
         next_timer_id pending log emit].
    f_equal.
    change (array_at (emit _ s) matcher) with (array_at s matcher).
    unfold drawn. cbn [List.map rev]. rewrite <- app_assoc. reflexivity.
Qed.

Lemma poll_tick_resume_log (matcher : nat) (threshold : float)
    (resized : list Detection) (s : State) :
  log (poll_tick_resume matcher threshold resized s)
  = (rev (drawn (array_at s matcher) threshold resized) ++ ClearCanvas :: log s)%list.
Proof. unfold poll_tick_resume. rewrite fold_draw_detection. reflexivity. Qed.

(** The parts of the state that the callbacks after an [await] leave alone. *)
Lemma poll_tick_resume_frame (matcher : nat) (threshold : float)
    (resized : list Detection) (s : State) :
  let s' := poll_tick_resume matcher threshold resized s in
  heap s' = heap s /\ descriptors s' = descriptors s /\ timers s' = timers s /\
  detecting s' = detecting s /\ now s' = now s /\ pending s' = pending s /\
  localStorage s' = localStorage s /\ name s' = name s /\
  next_timer_id s' = next_timer_id s.
Proof.
  unfold poll_tick_resume. rewrite fold_draw_detection. repeat split.
Qed.

Lemma handleRegister_resume_frame (name0 : string) (detection : option Detection)
    (s : State) :
  let s' := handleRegister_resume name0 detection s in
  timers s' = timers s /\ detecting s' = detecting s /\ now s' = now s /\
  pending s' = pending s /\ next_timer_id s' = next_timer_id s.
Proof. destruct detection; repeat split. Qed.

Lemma poll_tick_start_frame (video : option (list byte)) (matcher : nat)
    (threshold : float) (s : State) :
  let s' := poll_tick_start video matcher threshold s in
  heap s' = heap s /\ descriptors s' = descriptors s /\ timers s' = timers s /\
  detecting s' = detecting s /\ now s' = now s /\
  localStorage s' = localStorage s /\ name s' = name s /\
  next_timer_id s' = next_timer_id s /\
  pending s' = (pending s ++ [AwaitAllFaces matcher threshold])%list /\
  log s' = CallDetectAllFaces :: log s.
Proof. destruct video; repeat split. Qed.

(** Entering a session from an idle page sets its two timers. *)
Lemma handleDetect_enters (s : State) :
  timers s = [] -> registry s <> [] ->
  session_at (next_timer_id s) (now s) (descriptors s) 1 (handleDetect s).
Proof.
  intros Htimers Hreg. rewrite (handleDetect_nonempty s Hreg).
  unfold session_at. cbn. rewrite Htimers.
  repeat split; try reflexivity; lia.
Qed.

Lemma find_interval (n : nat) (t0 k : Z) (matcher : nat) :
  find_timer n (session_timers n t0 k matcher)
  = Some {| timer_id := n; timer_due := t0 + 300 * k; timer_period := Some 300;
            timer_callback := PollTick matcher THRESHOLD |}.
Proof. unfold find_timer. cbn. rewrite Nat.eqb_refl. reflexivity. Qed.

Lemma find_timeout (n : nat) (t0 k : Z) (matcher : nat) :
  find_timer (S n) (session_timers n t0 k matcher)
  = Some {| timer_id := S n; timer_due := t0 + 30000; timer_period := None;
            timer_callback := StopSession n |}.
Proof.
  unfold find_timer. cbn.
  rewrite (proj2 (Nat.eqb_neq n (S n))) by lia.
  rewrite Nat.eqb_refl. reflexivity.
Qed.

Lemma find_other (n id : nat) (t0 k : Z) (matcher : nat) :
  id <> n -> id <> S n -> find_timer id (session_timers n t0 k matcher) = None.
Proof.
  intros Hn HSn. unfold find_timer, session_timers. cbn [List.find timer_id].
  rewrite (proj2 (Nat.eqb_neq n id)) by congruence.
  rewrite (proj2 (Nat.eqb_neq (S n) id)) by congruence.
  reflexivity.
Qed.

(** A tick of the interval: allowed while the interval is due no later
    than the timeout; the interval is then due 300 ms later. *)
Lemma fire_interval (n : nat) (t0 : Z) (matcher : nat) (k : Z)
    (video : option (list byte)) (s : State) :
  session_at n t0 matcher k s ->
  (k <= 100 ->
   exists s', exec (FireTimer n video) s = Some s' /\
              session_at n t0 matcher (k + 1) s' /\ now s' = t0 + 300 * k) /\
  (100 < k -> exec (FireTimer n video) s = None).
Proof.
  intros (Hdet & Hnow & Hk & Hdue & Htimers).
  unfold exec. rewrite Htimers, find_interval.
  unfold earliest, session_timers. cbn [forallb timer_due].
  split.
  - intros Hle.
    rewrite (proj2 (Z.leb_le _ _)) by lia.
    rewrite (proj2 (Z.leb_le (t0 + 300 * k) (t0 + 30000))) by lia.
    eexists; split; [reflexivity|].
    unfold fire. cbn [timer_period timer_callback timer_id timer_due run_callback].
    destruct (poll_tick_start_frame video matcher THRESHOLD
                (set_now (Z.max (now s) (t0 + 300 * k)) s))
      as (_ & _ & Htm & Hd & Hn & _).
    unfold session_at, rearm. cbn [detecting now timers set_timers].
    rewrite Hd, Hn, Htm. cbn [detecting now timers set_now]. rewrite Htimers.
    unfold session_timers. cbn [List.map timer_id timer_due timer_period timer_callback].
    rewrite Nat.eqb_refl, (proj2 (Nat.eqb_neq (S n) n)) by lia.
    replace (t0 + 300 * (k + 1)) with (t0 + 300 * k + 300) by lia.
    repeat split; try assumption; try reflexivity; lia.
  - intros Hgt.
    rewrite (proj2 (Z.leb_le _ _)) by lia.
    rewrite (proj2 (Z.leb_gt (t0 + 300 * k) (t0 + 30000))) by lia.
    reflexivity.
Qed.

(** The timeout: allowed once no tick is due before it; it fires at
    [t0 + 30000], clears both timers and ends the session. *)
Lemma fire_timeout (n : nat) (t0 : Z) (matcher : nat) (k : Z)
    (video : option (list byte)) (s : State) :
  session_at n t0 matcher k s ->
  (100 <= k ->
   exists s', exec (FireTimer (S n) video) s = Some s') /\
  (forall s', exec (FireTimer (S n) video) s = Some s' ->
     100 <= k /\ now s' = t0 + 30000 /\ detecting s' = false /\ timers s' = [] /\
     heap s' = heap s /\ descriptors s' = descriptors s /\ pending s' = pending s /\
     log s' = log s).
Proof.
  intros (Hdet & Hnow & Hk & Hdue & Htimers).
  unfold exec. rewrite Htimers, find_timeout.
  unfold earliest, session_timers. cbn [forallb timer_due].
  split.
  - intros Hge.
    rewrite (proj2 (Z.leb_le (t0 + 30000) (t0 + 300 * k))) by lia.
    rewrite (proj2 (Z.leb_le (t0 + 30000) (t0 + 30000))) by lia.
    eexists; reflexivity.
  - intros s' Hexec.
    destruct (Z.leb_spec (t0 + 30000) (t0 + 300 * k)) as [Hle|Hlt];
      [|discriminate Hexec].
    rewrite (proj2 (Z.leb_le (t0 + 30000) (t0 + 30000))) in Hexec by lia.
    injection Hexec as <-.
    unfold fire. cbn [timer_period timer_callback timer_id timer_due run_callback].
    unfold clearInterval. cbn. rewrite Htimers. unfold session_timers. cbn.
    rewrite (proj2 (Nat.eqb_neq n (S n))) by lia.
    rewrite !Nat.eqb_refl. cbn. rewrite Nat.eqb_refl. cbn.
    repeat split; try reflexivity; lia.
Qed.

(** *** Array objects are never written to *)

Lemma handleDetect_heap (s : State) :
  heap (handleDetect s) = heap s /\ descriptors (handleDetect s) = descriptors s /\
  localStorage (handleDetect s) = localStorage s /\ name (handleDetect s) = name s.
Proof.
  unfold handleDetect. destruct (length (registry s) =? 0)%nat; repeat split.
Qed.

Lemma fire_heap (video : option (list byte)) (t : Timer) (s : State) :
  heap (fire video t s) = heap s /\ descriptors (fire video t s) = descriptors s /\
  localStorage (fire video t s) = localStorage s /\ name (fire video t s) = name s.
Proof.
  unfold fire, run_callback.
  destruct (timer_period t), (timer_callback t), video; repeat split.
Qed.

Lemma handleRegister_resume_keeps (name0 : string) (detection : option Detection)
    (s : State) (l : nat) (array : list LabeledFaceDescriptors) :
  heap s !! l = Some array ->
  heap (handleRegister_resume name0 detection s) !! l = Some array.
Proof.
  intros Hl. destruct detection as [d|]; [|exact Hl].
  cbn. rewrite lookup_insert_ne; [exact Hl|].
  intros Heq. apply (is_fresh (dom (heap s))).
  rewrite Heq. apply elem_of_dom. eexists; exact Hl.
Qed.

(** Whatever the page does, an array object that exists keeps its content. *)
Lemma exec_keeps_arrays (a : Action) (s s' : State) (l : nat)
    (array : list LabeledFaceDescriptors) :
  exec a s = Some s' -> heap s !! l = Some array -> heap s' !! l = Some array.
Proof.
  intros Hexec Hl. destruct a as [text| | |ms|id video|i detection|i resized];
    unfold exec in Hexec.
  - destruct (controls_disabled s); [discriminate|]. injection Hexec as <-. exact Hl.
  - destruct (controls_disabled s); [discriminate|].
    unfold handleRegister_start in Hexec.
    destruct (String.eqb (name s) ""); injection Hexec as <-; exact Hl.
  - destruct (controls_disabled s); [discriminate|]. injection Hexec as <-.
    destruct (handleDetect_heap s) as (-> & _). exact Hl.
  - destruct (_ && _); [|discriminate]. injection Hexec as <-. exact Hl.
  - destruct (find_timer id (timers s)) as [t|]; [|discriminate].
    destruct (earliest t (timers s)); [|discriminate]. injection Hexec as <-.
    destruct (fire_heap video t s) as (-> & _). exact Hl.
  - destruct (pending s !! i) as [[name0|matcher threshold]|]; try discriminate.
    injection Hexec as <-. apply handleRegister_resume_keeps. exact Hl.
  - destruct (pending s !! i) as [[name0|matcher threshold]|]; try discriminate.
    injection Hexec as <-.
    destruct (poll_tick_resume_frame matcher threshold resized
                (set_pending (delete i (pending s)) s)) as (-> & _).
    exact Hl.
Qed.

Lemma run_keeps_arrays (acts : list Action) (s s' : State) (l : nat)
    (array : list LabeledFaceDescriptors) :
  run acts s = Some s' -> heap s !! l = Some array -> heap s' !! l = Some array.
Proof.
  revert s. induction acts as [|a acts IH]; intros s Hrun Hl.
  - injection Hrun as <-. exact Hl.
  - cbn in Hrun. destruct (exec a s) as [s1|] eqn:Hexec; [|discriminate].
    apply (IH s1 Hrun). exact (exec_keeps_arrays a s s1 l array Hexec Hl).
Qed.

Lemma registry_nonempty_exists (s : State) :
  registry s <> [] -> heap s !! descriptors s = Some (registry s).
Proof.
  unfold registry, array_at. intros Hreg.
  destruct (heap s !! descriptors s) as [array|]; [reflexivity|].
  contradiction.
Qed.

(** *** The session, one action at a time *)

Lemma exec_session (n : nat) (t0 : Z) (matcher : nat) (k : Z) (a : Action)
    (s s' : State) :
  session_at n t0 matcher k s -> exec a s = Some s' ->
  if is_stop n a
  then 100 <= k /\ now s' = t0 + 30000 /\ detecting s' = false /\ timers s' = []
  else exists k', k <= k' /\ session_at n t0 matcher k' s'.
Proof.
  intros Hat Hexec.
  pose proof Hat as (Hdet & Hnow & Hk & Hdue & Htimers).
  destruct a as [text| | |ms|id video|i detection|i resized]; cbn [is_stop].
  - unfold exec, controls_disabled in Hexec. rewrite Hdet in Hexec. discriminate.
  - unfold exec, controls_disabled in Hexec. rewrite Hdet in Hexec. discriminate.
  - unfold exec, controls_disabled in Hexec. rewrite Hdet in Hexec. discriminate.
  - unfold exec in Hexec.
    destruct (0 <=? ms) eqn:Hms; [|discriminate].
    rewrite Htimers in Hexec. unfold session_timers in Hexec.
    cbn [andb forallb timer_due] in Hexec.
    destruct (Z.leb_spec (now s + ms) (t0 + 300 * k)); [|discriminate].
    destruct (Z.leb_spec (now s + ms) (t0 + 30000)); [|discriminate].
    injection Hexec as <-. exists k. split; [lia|].
    unfold session_at. cbn. repeat split; try assumption; lia.
  - destruct (Nat.eqb_spec id (S n)) as [->|HSn].
    + destruct (fire_timeout n t0 matcher k video s Hat) as (_ & Hstop).
      destruct (Hstop s' Hexec) as (? & ? & ? & ? & _). repeat split; assumption.
    + destruct (Nat.eq_dec id n) as [->|Hn].
      * destruct (fire_interval n t0 matcher k video s Hat) as (Hfire & Hnot).
        destruct (Z.le_gt_cases k 100) as [Hle|Hgt].
        -- destruct (Hfire Hle) as (s1 & Hs1 & Hat1 & _).
           rewrite Hs1 in Hexec. injection Hexec as <-.
           exists (k + 1). split; [lia | exact Hat1].
        -- rewrite (Hnot ltac:(lia)) in Hexec. discriminate.
      * unfold exec in Hexec. rewrite Htimers, find_other in Hexec by assumption.
        discriminate.
  - unfold exec in Hexec.
    destruct (pending s !! i) as [[name0|m threshold]|]; try discriminate.
    injection Hexec as <-.
    destruct (handleRegister_resume_frame name0 detection
                (set_pending (delete i (pending s)) s)) as (Htm & Hd & Hn & _).
    exists k. split; [lia|]. unfold session_at. rewrite Htm, Hd, Hn.
    cbn. repeat split; try assumption; lia.
  - unfold exec in Hexec.
    destruct (pending s !! i) as [[name0|m threshold]|]; try discriminate.
    injection Hexec as <-.
    destruct (poll_tick_resume_frame m threshold resized
                (set_pending (delete i (pending s)) s))
      as (_ & _ & Htm & Hd & Hn & _).
    exists k. split; [lia|]. unfold session_at. rewrite Htm, Hd, Hn.
    cbn. repeat split; try assumption; lia.
Qed.


End Session.



(** C8.  The ticks of a session read the array that the state variable
    referred to when the session was entered.  Whatever the page does
    afterwards, registrations included, that array holds the registry as it
    was at entry, and a tick draws for every detection the label of its
    best match in that registry. *)
Theorem C8_session_matches_registry_of_entry `{Platform}
    (s : State) (acts : list Action) (s' : State) (resized : list Detection) :
  registry s <> [] ->
  run acts (handleDetect s) = Some s' ->
  let matcher := descriptors s in
  In (PollTick matcher THRESHOLD) (List.map timer_callback (timers (handleDetect s))) /\
  array_at s' matcher = registry s /\
  log (poll_tick_resume matcher THRESHOLD resized s')
  = (rev (drawn (registry s) THRESHOLD resized) ++ ClearCanvas :: log s')%list.
Proof.
  intros Hreg Hrun matcher.
  assert (Harray : array_at s' matcher = registry s).
  { pose proof (registry_nonempty_exists s Hreg) as Hentry.
    destruct (handleDetect_heap s) as (Hheap & _). rewrite <- Hheap in Hentry.
    unfold array_at.
    rewrite (run_keeps_arrays acts (handleDetect s) s' matcher (registry s) Hrun Hentry).
    reflexivity. }
  split; [|split].
  - rewrite (handleDetect_nonempty s Hreg). cbn.
    rewrite !List.map_app, !in_app_iff. cbn. tauto.
  - exact Harray.
  - rewrite poll_tick_resume_log, Harray. reflexivity.
Qed.

Lemma C8_session_matches_registry_of_entry_witness :
  registry sample_in_flight <> [] /\
  exists s',
    run (H := stub_platform) [ResolveSingleFace 0 (Some sample_detection)]
        (handleDetect sample_in_flight) = Some s' /\
    length (registry s') = 2%nat /\
    array_at s' (descriptors sample_in_flight) = registry sample_in_flight.
Proof.
  assert (Hreg : registry sample_in_flight <> []) by discriminate.
  split; [exact Hreg|].
  eexists. split; [reflexivity|]. split; [reflexivity|].
  exact (proj1 (proj2 (C8_session_matches_registry_of_entry (H := stub_platform)
                         sample_in_flight
                         [ResolveSingleFace 0 (Some sample_detection)] _ []
                         Hreg eq_refl))).
Defined.


(** * Further properties *)

(** ** The loop of [checkBrightness], in any arithmetic *)

Section AnyArithmetic.
Context {num : Type} `{JSNumber num}.

Lemma add_pixel_term (pre : list Pixel) (p : Pixel) (tail : list byte) (total : num) :
  add_pixel (image_data pre ++ pixel_bytes p ++ tail)%list (4 * length pre) total
  = num_add total (pixel_term p).
Proof.
  unfold add_pixel, pixel_term.
  replace (4 * length pre)%nat with (4 * length pre + 0)%nat at 1 by lia.
  rewrite (data_at_pixel pre p tail 0 (red p)) by reflexivity.
  rewrite (data_at_pixel pre p tail 1 (green p)) by reflexivity.
  rewrite (data_at_pixel pre p tail 2 (blue p)) by reflexivity.
  reflexivity.
Qed.

Lemma brightness_loop_fold (rest pre : list Pixel) (total : num) (fuel : nat) :
  (length rest <= fuel)%nat ->
  brightness_loop fuel (image_data pre ++ image_data rest)%list (4 * length pre) total
  = fold_left (fun t p => num_add t (pixel_term p)) rest total.
Proof.
  revert pre total fuel.
  induction rest as [|p rest IH]; intros pre total fuel Hfuel.
  - destruct fuel as [|fuel]; simpl; [reflexivity|].
    rewrite app_nil_r, length_image_data.
    rewrite (proj2 (Nat.ltb_ge _ _)) by lia. reflexivity.
  - destruct fuel as [|fuel]; [simpl in Hfuel; lia|].
    cbn [brightness_loop].
    rewrite length_app, !length_image_data.
    rewrite (proj2 (Nat.ltb_lt _ _)) by (simpl; lia).
    change (image_data (p :: rest)) with (pixel_bytes p ++ image_data rest)%list.
    rewrite add_pixel_term.
    replace (4 * length pre + 4)%nat with (4 * length (pre ++ [p]))%nat
      by (rewrite length_app; simpl; lia).
    replace (image_data pre ++ pixel_bytes p ++ image_data rest)%list
      with (image_data (pre ++ [p]) ++ image_data rest)%list
      by (rewrite image_data_app, <- app_assoc; reflexivity).
    rewrite IH by (simpl in Hfuel; lia). reflexivity.
Qed.

Lemma brightness_total_fold (pixels : list Pixel) :
  brightness_total (image_data pixels)
  = fold_left (fun t p => num_add t (pixel_term p)) pixels (num_of_Z 0).
Proof.
  unfold brightness_total.
  pose proof (brightness_loop_fold pixels [] (num_of_Z 0) (length (image_data pixels)))
    as Hloop.
  change (image_data [] ++ image_data pixels)%list with (image_data pixels) in Hloop.
  change (4 * length (@nil Pixel))%nat with 0%nat in Hloop.
  apply Hloop. rewrite length_image_data. lia.
Qed.

Lemma fold_same_colour (p q : list Pixel) (total : num) :
  Forall2 same_colour p q ->
  fold_left (fun t a => num_add t (pixel_term a)) p total
  = fold_left (fun t a => num_add t (pixel_term a)) q total.
Proof.
  intros Hsame. revert total.
  induction Hsame as [|a b p q (Hr & Hg & Hb) Hsame IH]; intros total; [reflexivity|].
  cbn [fold_left].
  assert (Hterm : pixel_term a = pixel_term b)
    by (unfold pixel_term; rewrite Hr, Hg, Hb; reflexivity).
  rewrite Hterm. apply IH.
Qed.
End AnyArithmetic.

(** X1.  On the buffer of a frame the loop of [checkBrightness] has, when
    it ends, visited every pixel once, first to last, and added for each
    the quotient by 3 of the sum of its red, green and blue bytes; one
    round per pixel is all the fuel it needs.  This holds in double
    precision as in exact arithmetic. *)
Theorem brightness_total_is_left_fold {num : Type} `{JSNumber num} (pixels : list Pixel) :
  brightness_total (num := num) (image_data pixels)
  = fold_left (fun t p => num_add t (pixel_term p)) pixels (num_of_Z 0) /\
  forall fuel, (length pixels <= fuel)%nat ->
    brightness_loop (num := num) fuel (image_data pixels) 0 (num_of_Z 0)
    = fold_left (fun t p => num_add t (pixel_term p)) pixels (num_of_Z 0).
Proof.
  split; [apply brightness_total_fold|].
  intros fuel Hfuel.
  exact (brightness_loop_fold pixels [] (num_of_Z 0) fuel Hfuel).
Qed.

(** X2.  The alpha channel has no part in the warning: two frames whose
    pixels agree in red, green and blue get the same warning, in double
    precision as in any arithmetic. *)
Theorem alpha_is_ignored {num : Type} `{JSNumber num} (p q : list Pixel) (s : State) :
  Forall2 same_colour p q ->
  checkBrightness (num := num) (Some (image_data p)) s
  = checkBrightness (num := num) (Some (image_data q)) s.
Proof.
  intros Hsame. unfold checkBrightness, brightness_warning, brightness_avg.
  rewrite !brightness_total_fold, !length_image_data.
  rewrite (Forall2_length _ _ _ Hsame).
  rewrite (fold_same_colour p q _ Hsame). reflexivity.
Qed.

Lemma alpha_is_ignored_witness :
  Forall2 same_colour [uniform_pixel x20]
          [{| red := x20; green := x20; blue := x20; alpha := xff |}] /\
  checkBrightness (num := float) (Some [x20; x20; x20; x20]) (initial ∅)
  = checkBrightness (num := float) (Some [x20; x20; x20; xff]) (initial ∅).
Proof.
  assert (Hsame : Forall2 same_colour [uniform_pixel x20]
                    [{| red := x20; green := x20; blue := x20; alpha := xff |}]).
  { repeat constructor. }
  split; [exact Hsame|].
  exact (alpha_is_ignored (num := float) _ _ (initial ∅) Hsame).
Defined.





(** ** Loading and saving *)

Section Loading.
Context `{Platform}.

Lemma reload_persist_storable (reg : list LabeledFaceDescriptors) :
  storable_registry reg -> reload (persist reg) = Some reg.
Proof.
  intros Hall. rewrite reload_persist. f_equal.
  induction Hall as [|identity reg Hid Hall IH]; [reflexivity|].
  simpl. rewrite (reloaded_identity_storable identity Hid), IH. reflexivity.
Qed.

(** [mount], case by case. *)
Lemma mount_cases (storage : gmap string StoredText) :
  match storage !! STORAGE_KEY with
  | None => mount storage = initial storage
  | Some text =>
      if truthy text then
        match reload text with
        | Some loaded => mount storage = setDescriptors loaded (initial storage)
        | None => mount storage
                  = emit (ConsoleError "Failed to load face descriptors from storage")
                         (initial storage)
        end
      else mount storage = initial storage
  end.
Proof.
  unfold mount, load_saved, reload. cbn [localStorage initial].
  destruct (storage !! STORAGE_KEY) as [text|]; [|reflexivity].
  destruct (truthy text); [|reflexivity].
  destruct (JSON_parse text ≫= load_parsed); reflexivity.
Qed.
End Loading.

(** X4.  Loading what the component saved never fails, whatever numbers
    the descriptors hold: it gives as many identities, with the same labels,
    each with as many descriptors of the same lengths. *)
Theorem reload_keeps_shape `{Platform} (reg : list LabeledFaceDescriptors) :
  exists loaded,
    reload (persist reg) = Some loaded /\
    length loaded = length reg /\
    List.map label loaded = List.map label reg /\
    List.map (fun identity => List.map (@length float) (faceapi.descriptors identity)) loaded
    = List.map (fun identity => List.map (@length float) (faceapi.descriptors identity)) reg.
Proof.
  exists (List.map reloaded_identity reg). split; [apply reload_persist|].
  split; [apply length_map|]. split.
  - rewrite List.map_map. reflexivity.
  - rewrite List.map_map. apply List.map_ext. intros identity.
    unfold reloaded_identity. cbn. rewrite List.map_map.
    apply List.map_ext. intros d. apply length_map.
Qed.



Lemma mount_registry_log `{Platform} (storage : gmap string StoredText) :
  match storage !! STORAGE_KEY with
  | None => registry (mount storage) = [] /\ log (mount storage) = []
  | Some text =>
      if truthy text then
        match reload text with
        | Some loaded => registry (mount storage) = loaded /\ log (mount storage) = []
        | None =>
            registry (mount storage) = [] /\
            log (mount storage)
            = [ConsoleError "Failed to load face descriptors from storage"]
        end
      else registry (mount storage) = [] /\ log (mount storage) = []
  end.
Proof.
  pose proof (mount_cases storage) as Hcases.
  destruct (storage !! STORAGE_KEY) as [text|].
  - destruct (truthy text).
    + destruct (reload text) as [loaded|]; rewrite Hcases.
      * split; [apply registry_setDescriptors | reflexivity].
      * split; reflexivity.
    + rewrite Hcases. split; reflexivity.
  - rewrite Hcases. split; reflexivity.
Qed.



Lemma mapM_fails {A B : Type} (f : A -> option B) (l : list A) (a : A) :
  In a l -> f a = None -> mapM f l = None.
Proof.
  intros Hin Hfa. induction l as [|b l IH]; [destruct Hin|].
  cbn. destruct Hin as [->|Hin].
  - rewrite Hfa. reflexivity.
  - destruct (f b); [|reflexivity]. cbn. rewrite (IH Hin). reflexivity.
Qed.

(** X7.  Loading is all or nothing: one stored item that is [null], or has
    no array under "descriptors", keeps every other item from being loaded
    too, and the registry stays empty. *)
Theorem one_bad_item_loads_nothing `{Platform}
    (items : list JSValue) (item : JSValue) (storage : gmap string StoredText) :
  In item items ->
  item = JNull \/
  (forall ds, get_property item "descriptors" = Some (Some (JArray ds)) -> False) ->
  storage !! STORAGE_KEY = Some (JsonText (JArray items)) ->
  reload (JsonText (JArray items)) = None /\
  registry (mount storage) = [] /\
  log (mount storage) = [ConsoleError "Failed to load face descriptors from storage"].
Proof.
  intros Hin Hbad Hstored.
  assert (Hitem : load_item item = None).
  { destruct Hbad as [->|Hbad]; [reflexivity|].
    unfold load_item.
    destruct (get_property item "label") as [lbl|]; [|reflexivity]. cbn.
    destruct (get_property item "descriptors") as [[ds|]|]; try reflexivity.
    destruct ds; try reflexivity. exfalso. eapply Hbad. reflexivity. }
  assert (Hreload : reload (JsonText (JArray items)) = None).
  { unfold reload. cbn. exact (mapM_fails load_item items item Hin Hitem). }
  split; [exact Hreload|].
  pose proof (mount_registry_log storage) as Hmount.
  rewrite Hstored in Hmount. cbn [truthy] in Hmount. rewrite Hreload in Hmount.
  exact Hmount.
Qed.

Lemma one_bad_item_loads_nothing_witness :
  let good := JObject [("label", JString "Alice");
                       ("descriptors", JArray [JArray [JNumber 0.5]])] in
  let bad := JObject [("label", JString "Bob")] in
  let storage : gmap string StoredText :=
    {[ STORAGE_KEY := JsonText (JArray [good; bad]) ]} in
  In bad [good; bad] /\
  load_item (H := stub_platform) good
  = Some {| label := "Alice"; faceapi.descriptors := [[0.5%float]] |} /\
  registry (mount (H := stub_platform) storage) = [].
Proof.
  intros good bad storage.
  assert (Hin : In bad [good; bad]) by (right; left; reflexivity).
  split; [exact Hin|]. split; [reflexivity|].
  apply (one_bad_item_loads_nothing (H := stub_platform) [good; bad] bad storage Hin).
  - right. intros ds Hds. discriminate Hds.
  - reflexivity.
Defined.

(** ** What changes the registry *)

Section Effects.
Context `{Platform}.

Lemma registry_frame (s s' : State) :
  heap s' = heap s -> descriptors s' = descriptors s -> registry s' = registry s.
Proof. intros Hheap Hdesc. unfold registry, array_at. rewrite Hheap, Hdesc. reflexivity. Qed.

Lemma handleRegister_resume_found (name0 : string) (d : Detection) (s : State) :
  let identity := {| label := name0; faceapi.descriptors := [descriptor d] |} in
  let s' := handleRegister_resume name0 (Some d) s in
  registry s' = (registry s ++ [identity])%list /\
  localStorage s' = <[STORAGE_KEY := persist (registry s')]> (localStorage s) /\
  name s' = "".
Proof.
  intros identity s'.
  assert (Hreg : registry s' = (registry s ++ [identity])%list).
  { subst s'. unfold handleRegister_resume.
    change (registry (setDescriptors (registry s ++ [identity])
              (setItem STORAGE_KEY (JSON_stringify (toSave (registry s ++ [identity]))) s))
            = (registry s ++ [identity])%list).
    apply registry_setDescriptors. }
  split; [exact Hreg|]. rewrite Hreg. split; reflexivity.
Qed.

(** One action either leaves the registry and local storage as they are,
    or is the answer of the detector, with a face, to a registration. *)
Lemma exec_effect (a : Action) (s s' : State) :
  exec a s = Some s' ->
  (registry s' = registry s /\ localStorage s' = localStorage s) \/
  (exists i name0 d,
     a = ResolveSingleFace i (Some d) /\
     pending s !! i = Some (AwaitSingleFace name0) /\
     registry s'
     = (registry s ++ [{| label := name0; faceapi.descriptors := [descriptor d] |}])%list /\
     localStorage s' = <[STORAGE_KEY := persist (registry s')]> (localStorage s)).
Proof.
  intros Hexec. destruct a as [text| | |ms|id video|i detection|i resized];
    unfold exec in Hexec.
  - destruct (controls_disabled s); [discriminate|]. injection Hexec as <-.
    left. split; reflexivity.
  - destruct (controls_disabled s); [discriminate|].
    unfold handleRegister_start in Hexec.
    destruct (String.eqb (name s) ""); injection Hexec as <-; left; split; reflexivity.
  - destruct (controls_disabled s); [discriminate|]. injection Hexec as <-.
    destruct (handleDetect_heap s) as (Hheap & Hdesc & Hstore & _).
    left. split; [apply registry_frame; assumption | exact Hstore].
  - destruct (_ && _); [|discriminate]. injection Hexec as <-. left. split; reflexivity.
  - destruct (find_timer id (timers s)) as [t|]; [|discriminate].
    destruct (earliest t (timers s)); [|discriminate]. injection Hexec as <-.
    destruct (fire_heap video t s) as (Hheap & Hdesc & Hstore & _).
    left. split; [apply registry_frame; assumption | exact Hstore].
  - destruct (pending s !! i) as [[name0|matcher threshold]|] eqn:Hpending;
      try discriminate.
    injection Hexec as <-. destruct detection as [d|].
    + right. exists i, name0, d. split; [reflexivity|]. split; [exact Hpending|].
      destruct (handleRegister_resume_found name0 d
                  (set_pending (delete i (pending s)) s)) as (Hreg & Hstore & _).
      split; [exact Hreg | exact Hstore].
    + left. split; reflexivity.
  - destruct (pending s !! i) as [[name0|matcher threshold]|]; try discriminate.
    injection Hexec as <-.
    destruct (poll_tick_resume_frame matcher threshold resized
                (set_pending (delete i (pending s)) s))
      as (Hheap & Hdesc & _ & _ & _ & _ & Hstore & _).
    left. split; [apply registry_frame; assumption | exact Hstore].
Qed.

Lemma exec_in_sync (a : Action) (s s' : State) :
  exec a s = Some s' -> in_sync s -> in_sync s'.
Proof.
  intros Hexec Hsync. unfold in_sync in *.
  destruct (exec_effect a s s' Hexec) as [(Hreg & Hstore)|(i & n0 & d & _ & _ & _ & Hstore)].
  - rewrite Hreg, Hstore. exact Hsync.
  - rewrite Hstore. apply lookup_insert_eq.
Qed.

Lemma run_in_sync (acts : list Action) (s s' : State) :
  run acts s = Some s' -> in_sync s -> in_sync s'.
Proof.
  revert s. induction acts as [|a acts IH]; intros s Hrun Hsync.
  - injection Hrun as <-. exact Hsync.
  - cbn in Hrun. destruct (exec a s) as [s1|] eqn:Hexec; [|discriminate].
    exact (IH s1 Hrun (exec_in_sync a s s1 Hexec Hsync)).
Qed.

Lemma run_extends_registry (acts : list Action) (s s' : State) :
  run acts s = Some s' ->
  exists added, registry s' = (registry s ++ added)%list /\
                (length added <= length acts)%nat.
Proof.
  revert s. induction acts as [|a acts IH]; intros s Hrun.
  - injection Hrun as <-. exists []. rewrite app_nil_r. split; [reflexivity | simpl; lia].
  - cbn in Hrun. destruct (exec a s) as [s1|] eqn:Hexec; [|discriminate].
    destruct (IH s1 Hrun) as (added & Hadded & Hlen).
    destruct (exec_effect a s s1 Hexec) as [(Hreg & _)|(i & n0 & d & _ & _ & Hreg & _)].
    + exists added. rewrite Hadded, Hreg. split; [reflexivity | simpl; lia].
    + eexists (_ :: added). rewrite Hadded, Hreg, <- app_assoc.
      split; [reflexivity | simpl; lia].
Qed.
End Effects.

(** X8.  The registry only grows.  Whatever the page does, the identities
    registered before are still there, in the same order and unchanged, the
    new ones after them, at most one per action; nothing is removed or
    replaced, not even by a registration under a name already taken. *)
Theorem registry_only_grows `{Platform} (acts : list Action) (s s' : State) :
  run acts s = Some s' ->
  exists added,
    registry s' = (registry s ++ added)%list /\ (length added <= length acts)%nat.
Proof. apply run_extends_registry. Qed.

Lemma registry_only_grows_witness :
  run (H := stub_platform)
      [ResolveSingleFace 0 (Some sample_detection)] sample_in_flight
  = Some (handleRegister_resume "Bob" (Some sample_detection)
            (set_pending [] sample_in_flight)) /\
  exists added,
    registry (handleRegister_resume "Bob" (Some sample_detection)
                (set_pending [] sample_in_flight))
    = (registry sample_in_flight ++ added)%list /\ (length added <= 1)%nat.
Proof.
  assert (Hrun : run (H := stub_platform)
                   [ResolveSingleFace 0 (Some sample_detection)] sample_in_flight
                 = Some (handleRegister_resume "Bob" (Some sample_detection)
                           (set_pending [] sample_in_flight))) by reflexivity.
  split; [exact Hrun|].
  exact (registry_only_grows (H := stub_platform) _ _ _ Hrun).
Defined.

(** X9.  Only the answer of the detector, with a face, to a registration
    changes the registry or local storage: typing, a click, a timer, a tick
    and a registration that finds no face leave both as they are. *)
Theorem only_a_found_face_changes_registry_and_storage `{Platform}
    (a : Action) (s s' : State) :
  exec a s = Some s' ->
  (forall i d, a <> ResolveSingleFace i (Some d)) ->
  registry s' = registry s /\ localStorage s' = localStorage s.
Proof.
  intros Hexec Hnot.
  destruct (exec_effect a s s' Hexec) as [Hsame|(i & n0 & d & Ha & _)];
    [exact Hsame|].
  exfalso. exact (Hnot i d Ha).
Qed.

Lemma only_a_found_face_changes_registry_and_storage_witness :
  exec (H := stub_platform) (ResolveSingleFace 0 None) sample_in_flight
  = Some (handleRegister_resume "Bob" None (set_pending [] sample_in_flight)) /\
  registry (handleRegister_resume "Bob" None (set_pending [] sample_in_flight))
  = registry sample_in_flight.
Proof.
  assert (Hexec : exec (H := stub_platform) (ResolveSingleFace 0 None) sample_in_flight
                  = Some (handleRegister_resume "Bob" None
                            (set_pending [] sample_in_flight))) by reflexivity.
  split; [exact Hexec|].
  apply (only_a_found_face_changes_registry_and_storage (H := stub_platform) _ _ _ Hexec).
  intros i d Heq. discriminate Heq.
Defined.

Lemma found_face_in_sync `{Platform} (i : nat) (d : Detection) (s s' : State) :
  exec (ResolveSingleFace i (Some d)) s = Some s' -> in_sync s'.
Proof.
  intros Hexec. unfold exec in Hexec.
  destruct (pending s !! i) as [[name0|matcher threshold]|]; try discriminate.
  injection Hexec as <-.
  destruct (handleRegister_resume_found name0 d (set_pending (delete i (pending s)) s))
    as (_ & Hstore & _).
  pose proof (f_equal (fun m : gmap string StoredText => m !! STORAGE_KEY) Hstore) as Hkey.
  cbn beta in Hkey. rewrite lookup_insert_eq in Hkey. exact Hkey.
Qed.

(** X10.  Once local storage holds what was saved for the registry as it
    is, it does so after every action: the two never drift apart.  A
    registration that finds a face brings this about, whatever was stored
    before. *)
Theorem storage_mirrors_registry `{Platform} (acts : list Action) (s s' : State) :
  run acts s = Some s' ->
  in_sync s \/ (exists i d, In (ResolveSingleFace i (Some d)) acts) ->
  in_sync s'.
Proof.
  revert s. induction acts as [|a acts IH]; intros s Hrun Hcause.
  - injection Hrun as <-. destruct Hcause as [Hsync|(i & d & [])]. exact Hsync.
  - cbn in Hrun. destruct (exec a s) as [s1|] eqn:Hexec; [|discriminate].
    apply (IH s1 Hrun).
    destruct Hcause as [Hsync|(i & d & [Ha|Hin])].
    + left. exact (exec_in_sync a s s1 Hexec Hsync).
    + left. subst a. exact (found_face_in_sync i d s s1 Hexec).
    + right. exists i, d. exact Hin.
Qed.

Lemma storage_mirrors_registry_witness :
  in_sync sample_registered /\
  in_sync (handleRegister_resume "Bob" (Some sample_detection)
             (set_pending [] sample_in_flight)).
Proof.
  assert (Hsync : in_sync sample_in_flight) by reflexivity.
  split; [reflexivity|].
  exact (storage_mirrors_registry (H := stub_platform)
           [ResolveSingleFace 0 (Some sample_detection)] sample_in_flight _
           eq_refl (or_introl Hsync)).
Defined.

(** X11.  What was registered is there again after the page is loaded
    anew: mounting over the local storage a registration left behind gives
    the registry of that registration, when the components of its
    descriptors are finite single-precision values other than negative
    zero. *)
Theorem registration_survives_reload `{Platform} (s : State) (d : Detection) :
  name s <> "" ->
  storable_registry (registry s) ->
  Forall storable (descriptor d) ->
  let s' := handleRegister (Some d) s in
  registry (mount (localStorage s')) = registry s' /\
  log (mount (localStorage s')) = [].
Proof.
  intros Hname Hreg Hd s'.
  assert (Hs' : registry s'
                = (registry s ++ [{| label := name s;
                                     faceapi.descriptors := [descriptor d] |}])%list).
  { subst s'. rewrite (handleRegister_found s d Hname). apply registry_setDescriptors. }
  assert (Hstore : localStorage s' !! STORAGE_KEY = Some (persist (registry s'))).
  { rewrite Hs'. subst s'. rewrite (handleRegister_found s d Hname). cbn.
    apply lookup_insert_eq. }
  assert (Hstorable : storable_registry (registry s')).
  { rewrite Hs'. apply Forall_app. split; [exact Hreg|].
    constructor; [|constructor]. cbn. constructor; [exact Hd | constructor]. }
  pose proof (mount_registry_log (localStorage s')) as Hmount.
  rewrite Hstore in Hmount. cbn [truthy persist JSON_stringify] in Hmount.
  change (JsonText (json_image (toSave (registry s')))) with (persist (registry s'))
    in Hmount.
  rewrite (reload_persist_storable (registry s') Hstorable) in Hmount.
  exact Hmount.
Qed.

Lemma registration_survives_reload_witness :
  name sample_state <> "" /\
  registry (mount (H := stub_platform) (localStorage sample_registered))
  = registry sample_registered.
Proof.
  split; [discriminate|].
  apply (registration_survives_reload (H := stub_platform) sample_state sample_detection).
  - discriminate.
  - constructor.
  - repeat constructor.
Defined.

(** ** Sessions, over all that the page can do *)

Section Sessions.
Context `{Platform}.




(** *** The clock *)

Lemma fire_now (video : option (list byte)) (t : Timer) (s : State) :
  now (fire video t s) = Z.max (now s) (timer_due t).
Proof.
  unfold fire, run_callback.
  destruct (timer_period t), (timer_callback t), video; reflexivity.
Qed.

Lemma handleDetect_now (s : State) : now (handleDetect s) = now s.
Proof. unfold handleDetect. destruct (length (registry s) =? 0)%nat; reflexivity. Qed.

Lemma exec_clock (a : Action) (s s' : State) : exec a s = Some s' -> now s <= now s'.
Proof.
  intros Hexec. destruct a as [text| | |ms|id video|i detection|i resized];
    unfold exec in Hexec.
  - destruct (controls_disabled s); [discriminate|]. injection Hexec as <-. cbn. lia.
  - destruct (controls_disabled s); [discriminate|].
    unfold handleRegister_start in Hexec.
    destruct (String.eqb (name s) ""); injection Hexec as <-; cbn; lia.
  - destruct (controls_disabled s); [discriminate|]. injection Hexec as <-.
    rewrite handleDetect_now. lia.
  - destruct (Z.leb_spec 0 ms); [|discriminate].
    destruct (forallb _ _); [|discriminate]. injection Hexec as <-. cbn. lia.
  - destruct (find_timer id (timers s)) as [t|]; [|discriminate].
    destruct (earliest t (timers s)); [|discriminate]. injection Hexec as <-.
    rewrite fire_now. lia.
  - destruct (pending s !! i) as [[name0|matcher threshold]|]; try discriminate.
    injection Hexec as <-.
    destruct (handleRegister_resume_frame name0 detection
                (set_pending (delete i (pending s)) s)) as (_ & _ & Hn & _).
    rewrite Hn. cbn. lia.
  - destruct (pending s !! i) as [[name0|matcher threshold]|]; try discriminate.
    injection Hexec as <-.
    destruct (poll_tick_resume_frame matcher threshold resized
                (set_pending (delete i (pending s)) s)) as (_ & _ & _ & _ & Hn & _).
    rewrite Hn. cbn. lia.
Qed.

Lemma run_clock (acts : list Action) (s s' : State) :
  run acts s = Some s' -> now s <= now s'.
Proof.
  revert s. induction acts as [|a acts IH]; intros s Hrun.
  - injection Hrun as <-. lia.
  - cbn in Hrun. destruct (exec a s) as [s1|] eqn:Hexec; [|discriminate].
    pose proof (exec_clock a s s1 Hexec). pose proof (IH s1 Hrun). lia.
Qed.

(** *** Counting the ticks of a session *)

Lemma exec_timers_same (a : Action) (s s' : State) :
  exec a s = Some s' -> detecting s = true ->
  (forall id video, a <> FireTimer id video) -> timers s' = timers s.
Proof.
  intros Hexec Hdet Hnofire.
  destruct a as [text| | |ms|id video|i detection|i resized]; unfold exec in Hexec.
  - unfold controls_disabled in Hexec. rewrite Hdet in Hexec. discriminate.
  - unfold controls_disabled in Hexec. rewrite Hdet in Hexec. discriminate.
  - unfold controls_disabled in Hexec. rewrite Hdet in Hexec. discriminate.
  - destruct (_ && _); [|discriminate]. injection Hexec as <-. reflexivity.
  - exfalso. exact (Hnofire id video eq_refl).
  - destruct (pending s !! i) as [[name0|matcher threshold]|]; try discriminate.
    injection Hexec as <-.
    destruct (handleRegister_resume_frame name0 detection
                (set_pending (delete i (pending s)) s)) as (Htm & _).
    exact Htm.
  - destruct (pending s !! i) as [[name0|matcher threshold]|]; try discriminate.
    injection Hexec as <-.
    destruct (poll_tick_resume_frame matcher threshold resized
                (set_pending (delete i (pending s)) s)) as (_ & _ & Htm & _).
    exact Htm.
Qed.

Lemma session_timers_inj (n : nat) (t0 k k' : Z) (matcher : nat) :
  session_timers n t0 k' matcher = session_timers n t0 k matcher -> k' = k.
Proof. unfold session_timers. intros Heq. injection Heq as Hdue. lia. Qed.

Lemma exec_session_count (n : nat) (t0 : Z) (matcher : nat) (k : Z) (a : Action)
    (s s' : State) :
  session_at n t0 matcher k s -> exec a s = Some s' -> is_stop n a = false ->
  session_at n t0 matcher (k + (if is_tick n a then 1 else 0)) s'.
Proof.
  intros Hat Hexec Hnostop.
  destruct (is_tick n a) eqn:Htick.
  - destruct a as [| | | |id video| |]; try discriminate Htick.
    cbn in Htick. apply Nat.eqb_eq in Htick. subst id.
    destruct (fire_interval n t0 matcher k video s Hat) as (Hfire & Hnot).
    destruct (Z.le_gt_cases k 100) as [Hle|Hgt].
    + destruct (Hfire Hle) as (s1 & Hs1 & Hat1 & _).
      rewrite Hs1 in Hexec. injection Hexec as <-. exact Hat1.
    + rewrite (Hnot ltac:(lia)) in Hexec. discriminate.
  - pose proof (exec_session n t0 matcher k a s s' Hat Hexec) as Hstep.
    rewrite Hnostop in Hstep. destruct Hstep as (k' & _ & Hat').
    assert (Hsame : timers s' = timers s).
    { destruct Hat as (Hdet & _ & _ & _ & Htimers).
      destruct a as [| | | |id video| |];
        try (apply (exec_timers_same _ s s' Hexec Hdet); intros; discriminate).
      cbn in Htick, Hnostop.
      apply Nat.eqb_neq in Htick. apply Nat.eqb_neq in Hnostop.
      unfold exec in Hexec. rewrite Htimers, find_other in Hexec by assumption.
      discriminate. }
    destruct Hat as (_ & _ & _ & _ & Htimers).
    pose proof Hat' as (_ & _ & _ & _ & Htimers').
    rewrite Hsame, Htimers in Htimers'. symmetry in Htimers'.
    apply session_timers_inj in Htimers'. subst k'.
    rewrite Z.add_0_r. exact Hat'.
Qed.

Lemma run_session_count (n : nat) (t0 : Z) (matcher : nat) (acts : list Action) :
  forall (k : Z) (s s' : State),
  session_at n t0 matcher k s -> run acts s = Some s' ->
  forallb (fun a => negb (is_stop n a)) acts = true ->
  session_at n t0 matcher (k + Z.of_nat (count_ticks n acts)) s'.
Proof.
  induction acts as [|a acts IH]; intros k s s' Hat Hrun Hnostop.
  - injection Hrun as <-. cbn. rewrite Z.add_0_r. exact Hat.
  - cbn in Hrun, Hnostop. destruct (exec a s) as [s1|] eqn:Hexec; [|discriminate].
    apply andb_true_iff in Hnostop as (Ha & Hrest). apply negb_true_iff in Ha.
    pose proof (exec_session_count n t0 matcher k a s s1 Hat Hexec Ha) as Hat1.
    pose proof (IH _ s1 s' Hat1 Hrun Hrest) as Hat'.
    unfold count_ticks in *. cbn [List.filter].
    destruct (is_tick n a); cbn [length].
    + replace (k + Z.of_nat (S (length (List.filter (is_tick n) acts))))
        with (k + 1 + Z.of_nat (length (List.filter (is_tick n) acts))) by lia.
      exact Hat'.
    + rewrite Z.add_0_r in Hat'. exact Hat'.
Qed.

(** A tick while the session runs: what it adds to the awaited calls. *)
Lemma fire_interval_pending (n : nat) (t0 : Z) (matcher : nat) (k : Z)
    (video : option (list byte)) (s s' : State) :
  session_at n t0 matcher k s ->
  exec (FireTimer n video) s = Some s' ->
  pending s' = (pending s ++ [AwaitAllFaces matcher THRESHOLD])%list /\
  log s' = CallDetectAllFaces :: log s.
Proof.
  intros (Hdet & Hnow & Hk & Hdue & Htimers) Hexec.
  unfold exec in Hexec. rewrite Htimers, find_interval in Hexec.
  destruct (earliest _ _); [|discriminate]. injection Hexec as <-.
  unfold fire. cbn [timer_period timer_callback timer_id timer_due run_callback].
  destruct (poll_tick_start_frame video matcher THRESHOLD
              (set_now (Z.max (now s) (t0 + 300 * k)) s))
    as (_ & _ & _ & _ & _ & _ & _ & _ & Hp & Hl).
  unfold rearm. cbn [pending log set_timers]. rewrite Hp, Hl. split; reflexivity.
Qed.
End Sessions.




(** The clock of the page never runs back, whatever the page does. *)
Theorem clock_never_runs_back `{Platform} (acts : list Action) (s s' : State) :
  run acts s = Some s' -> now s <= now s'.
Proof. apply run_clock. Qed.

Lemma clock_never_runs_back_witness :
  run (H := stub_platform) [FireTimer 1 None; Elapse 100]
      (handleDetect sample_registered) <> None /\
  forall s', run (H := stub_platform) [FireTimer 1 None; Elapse 100]
                 (handleDetect sample_registered) = Some s' ->
             now (handleDetect sample_registered) <= now s'.
Proof.
  split; [discriminate|].
  intros s' Hrun. exact (clock_never_runs_back (H := stub_platform) _ _ _ Hrun).
Defined.

(** X13.  A session makes 99 or 100 ticks, never fewer and never more:
    when its timeout fires, the interval has fired 99 times, or 100 times
    where the hundredth tick, due at the same instant, came first. *)
Theorem session_makes_99_or_100_ticks `{Platform}
    (s : State) (acts : list Action) (s' : State) (video : option (list byte))
    (s'' : State) :
  timers s = [] -> registry s <> [] ->
  run acts (handleDetect s) = Some s' ->
  forallb (fun a => negb (is_stop (next_timer_id s) a)) acts = true ->
  exec (FireTimer (S (next_timer_id s)) video) s' = Some s'' ->
  (99 <= count_ticks (next_timer_id s) acts <= 100)%nat.
Proof.
  intros Htimers Hreg Hrun Hnostop Hstop.
  pose proof (handleDetect_enters s Htimers Hreg) as Hentry.
  pose proof (run_session_count _ _ _ acts 1 _ s' Hentry Hrun Hnostop) as Hat.
  destruct (fire_timeout _ _ _ _ video s' Hat) as (_ & Hfired).
  destruct (Hfired s'' Hstop) as (Hk & _).
  destruct Hat as (_ & _ & Hrange & _). lia.
Qed.

Lemma session_makes_99_or_100_ticks_witness :
  exists s' s'',
    run (H := stub_platform) (repeat (FireTimer 1 None) 99)
        (handleDetect sample_registered) = Some s' /\
    exec (H := stub_platform) (FireTimer 2 None) s' = Some s'' /\
    (99 <= count_ticks 1 (repeat (FireTimer 1 None) 99) <= 100)%nat.
Proof.
  assert (Hreg : registry sample_registered <> []) by discriminate.
  destruct (run (H := stub_platform) (repeat (FireTimer 1 None) 99)
              (handleDetect sample_registered)) as [s'|] eqn:Hrun;
    [|vm_compute in Hrun; discriminate Hrun].
  pose proof (run_session_count (H := stub_platform) 1 0 1
                (repeat (FireTimer 1 None) 99) 1 _ s'
                (handleDetect_enters sample_registered eq_refl Hreg) Hrun eq_refl)
    as Hat.
  destruct (fire_timeout (H := stub_platform) 1 0 1 _ None s' Hat) as (Hcan & _).
  destruct (Hcan ltac:(vm_compute; discriminate)) as (s'' & Hstop).
  exists s', s''. split; [reflexivity|]. split; [exact Hstop|].
  exact (session_makes_99_or_100_ticks (H := stub_platform) sample_registered
           (repeat (FireTimer 1 None) 99) s' None s'' eq_refl Hreg Hrun eq_refl Hstop).
Defined.

(** X14.  A tick does not wait for the ticks before it: while the interval
    is due no later than the timeout it fires whatever calls of the
    detector are still awaited, and adds one more to them. *)
Theorem ticks_do_not_wait `{Platform} (n : nat) (t0 : Z) (matcher : nat) (k : Z)
    (video : option (list byte)) (s : State) :
  session_at n t0 matcher k s -> k <= 100 ->
  exists s',
    exec (FireTimer n video) s = Some s' /\
    pending s' = (pending s ++ [AwaitAllFaces matcher THRESHOLD])%list /\
    log s' = CallDetectAllFaces :: log s.
Proof.
  intros Hat Hk.
  destruct (fire_interval n t0 matcher k video s Hat) as (Hfire & _).
  destruct (Hfire Hk) as (s' & Hs' & _).
  exists s'. split; [exact Hs'|].
  exact (fire_interval_pending n t0 matcher k video s s' Hat Hs').
Qed.

Lemma sample_late_session_at : session_at 1 0 1 100 sample_late_session.
Proof. unfold session_at. cbn. repeat split; try reflexivity; lia. Qed.

Lemma ticks_do_not_wait_witness :
  session_at 1 0 1 100 sample_late_session /\ 100 <= 100 /\
  exists s',
    exec (H := stub_platform) (FireTimer 1 None) sample_late_session = Some s' /\
    pending s' = [AwaitAllFaces 1 THRESHOLD; AwaitAllFaces 1 THRESHOLD].
Proof.
  split; [exact sample_late_session_at|]. split; [lia|].
  destruct (ticks_do_not_wait (H := stub_platform) 1 0 1 100 None sample_late_session
              sample_late_session_at ltac:(lia)) as (s' & Hexec & Hpending & _).
  exists s'. split; [exact Hexec | exact Hpending].
Defined.

(** X15.  The end of a session does not cancel a call of the detector that
    is awaited: the call stays awaited, and when it returns, the session
    being over, the canvas is still cleared and a box drawn for each face. *)
Theorem end_of_session_cancels_no_call `{Platform} (n : nat) (t0 : Z) (matcher : nat)
    (k : Z) (video : option (list byte)) (s s' : State) :
  session_at n t0 matcher k s ->
  exec (FireTimer (S n) video) s = Some s' ->
  pending s' = pending s /\
  forall i m threshold resized,
    pending s !! i = Some (AwaitAllFaces m threshold) ->
    exists s'',
      exec (ResolveAllFaces i resized) s' = Some s'' /\
      detecting s'' = false /\
      log s''
      = (rev (drawn (array_at s m) threshold resized) ++ ClearCanvas :: log s)%list.
Proof.
  intros Hat Hexec.
  destruct (fire_timeout n t0 matcher k video s Hat) as (_ & Hfired).
  destruct (Hfired s' Hexec) as (_ & _ & Hdet & _ & Hheap & _ & Hpending & Hlog).
  split; [exact Hpending|].
  intros i m threshold resized Hi.
  eexists. split.
  - unfold exec. rewrite Hpending, Hi. reflexivity.
  - destruct (poll_tick_resume_frame m threshold resized
                (set_pending (delete i (pending s)) s'))
      as (_ & _ & _ & Hd & _).
    split; [rewrite Hd; exact Hdet|].
    rewrite poll_tick_resume_log. cbn [log set_pending].
    unfold array_at. cbn [heap set_pending]. rewrite Hheap, Hlog. reflexivity.
Qed.

Lemma end_of_session_cancels_no_call_witness :
  exists s',
    exec (H := stub_platform) (FireTimer 2 None) sample_late_session = Some s' /\
    detecting s' = false /\
    pending s' = [AwaitAllFaces 1 THRESHOLD] /\
    exists s'',
      exec (H := stub_platform) (ResolveAllFaces 0 [sample_detection]) s' = Some s'' /\
      log s'' = (DrawBox (box sample_detection) "Alice" :: ClearCanvas
                 :: log sample_late_session)%list.
Proof.
  destruct (fire_timeout (H := stub_platform) 1 0 1 100 None sample_late_session
              sample_late_session_at) as (Hcan & Hfired).
  destruct (Hcan ltac:(lia)) as (s' & Hexec).
  destruct (Hfired s' Hexec) as (_ & _ & Hdet & _).
  destruct (end_of_session_cancels_no_call (H := stub_platform) 1 0 1 100 None
              sample_late_session s' sample_late_session_at Hexec)
    as (Hpending & Hdraw).
  exists s'. split; [exact Hexec|]. split; [exact Hdet|]. split; [exact Hpending|].
  destruct (Hdraw 0%nat 1%nat THRESHOLD [sample_detection] eq_refl)
    as (s'' & Hresolve & _ & Hlog).
  exists s''. split; [exact Hresolve | exact Hlog].
Defined.

(** X16.  A registration registers the name that was in the input when
    Register was clicked.  What is typed while the detector is at work
    neither changes that name nor stays: when the detector answers with a
    face, the input is cleared. *)
Theorem registration_uses_name_at_click `{Platform}
    (s : State) (text : string) (d : Detection) :
  detecting s = false -> name s <> "" ->
  exists s',
    run [ClickRegister; TypeName text; ResolveSingleFace (length (pending s)) (Some d)] s
    = Some s' /\
    registry s'
    = (registry s ++ [{| label := name s; faceapi.descriptors := [descriptor d] |}])%list /\
    name s' = "".
Proof.
  intros Hidle Hname.
  eexists. split.
  - cbn [run]. unfold exec at 1, controls_disabled, handleRegister_start.
    rewrite Hidle, (name_nonempty s Hname).
    unfold exec at 1, controls_disabled. cbn [detecting set_pending emit].
    rewrite Hidle.
    unfold exec. cbn [pending setName set_pending emit].
    rewrite lookup_app_r by lia. rewrite Nat.sub_diag. cbn [lookup list_lookup].
    reflexivity.
  - destruct (handleRegister_resume_found (name s) d
                (set_pending
                   (delete (length (pending s))
                      (pending s ++ [AwaitSingleFace (name s)])%list)
                   (setName text
                      (set_pending (pending s ++ [AwaitSingleFace (name s)])%list
                         (emit CallDetectSingleFace s)))))
      as (Hreg & _ & Hcleared).
    split; [exact Hreg | exact Hcleared].
Qed.

Lemma registration_uses_name_at_click_witness :
  detecting sample_state = false /\ name sample_state <> "" /\
  exists s',
    run (H := stub_platform)
        [ClickRegister; TypeName "Mallory"; ResolveSingleFace 0 (Some sample_detection)]
        sample_state = Some s' /\
    List.map label (registry s') = ["Alice"] /\ name s' = "".
Proof.
  split; [reflexivity|]. split; [discriminate|].
  destruct (registration_uses_name_at_click (H := stub_platform) sample_state "Mallory"
              sample_detection eq_refl ltac:(discriminate))
    as (s' & Hrun & Hreg & Hname).
  exists s'. split; [exact Hrun|]. split; [rewrite Hreg; reflexivity | exact Hname].
Defined.

(** X17.  When a tick's call of the detector returns, the canvas is
    cleared and then one box is drawn for each detected face, in the order
    of detection, at the face's box, labelled by the face's best match in
    the array the session reads; nothing but the canvas changes. *)
Theorem tick_draws_one_box_per_face `{Platform}
    (s : State) (i : nat) (matcher : nat) (threshold : float) (resized : list Detection) :
  pending s !! i = Some (AwaitAllFaces matcher threshold) ->
  exists s',
    exec (ResolveAllFaces i resized) s = Some s' /\
    log s'
    = (rev (drawn (array_at s matcher) threshold resized) ++ ClearCanvas :: log s)%list /\
    List.map (fun e => match e with DrawBox b _ => Some b | _ => None end)
             (drawn (array_at s matcher) threshold resized)
    = List.map (fun d => Some (box d)) resized /\
    registry s' = registry s /\ localStorage s' = localStorage s /\
    timers s' = timers s /\ detecting s' = detecting s /\
    pending s' = delete i (pending s).
Proof.
  intros Hi. eexists. split; [unfold exec; rewrite Hi; reflexivity|].
  destruct (poll_tick_resume_frame matcher threshold resized
              (set_pending (delete i (pending s)) s))
    as (Hheap & Hdesc & Htm & Hd & _ & Hp & Hstore & _).
  split; [rewrite poll_tick_resume_log; reflexivity|].
  split; [unfold drawn; rewrite List.map_map; reflexivity|].
  split; [apply registry_frame; assumption|].
  repeat split; assumption.
Qed.

Lemma tick_draws_one_box_per_face_witness :
  pending sample_late_session !! 0%nat = Some (AwaitAllFaces 1 THRESHOLD) /\
  exists s',
    exec (H := stub_platform)
         (ResolveAllFaces 0 [sample_detection; sample_detection]) sample_late_session
    = Some s' /\
    log s' = (DrawBox (box sample_detection) "Alice"
              :: DrawBox (box sample_detection) "Alice"
              :: ClearCanvas :: log sample_late_session)%list.
Proof.
  split; [reflexivity|].
  destruct (tick_draws_one_box_per_face (H := stub_platform) sample_late_session 0 1
              THRESHOLD [sample_detection; sample_detection] eq_refl)
    as (s' & Hexec & Hlog & _).
  exists s'. split; [exact Hexec | exact Hlog].
Defined.
